(** * Latent-representation networks of the robot controller

    A shallow embedding of [3_Robot_controller/network/latent.py]: the
    Gaussian heads, the image encoder and decoder and the task network,
    together with the part of the tensor framework they call.

    Conventions of the embedding.
    - A tensor is its shape and its row-major storage of binary32
      floating-point numbers, the default dtype of the framework, with
      their zeros, infinities and NaN; a Python float is a binary64
      number and is rounded to binary32 when it meets a tensor.  Other
      dtypes and the device of a tensor are not represented.
    - A Python exception is an [error] value; every function that can
      raise returns a [result].
    - A [forward] method is a computation in a state-and-error monad
      whose state is the module object itself, so that what a call
      leaves in the object can be stated.
    - The framework's layers, elementwise kernels and random
      initialisers, and the helpers of [network/base.py], are
      parameters ([Torch], [Base]).
    - A linear layer or a convolution holds a bias, as all those that
      latent.py builds do; a layer built with [bias=False] is not
      represented. *)

From Stdlib Require Import List Arith Bool Lia ZArith SpecFloat.
Import ListNotations.

Set Implicit Arguments.

(* ------------------------------------------------------------------ *)
(** ** Exceptions and results *)

(** Where an exception comes from. *)
Inductive error : Type :=
| AssertionError      (* an [assert] statement of latent.py *)
| UnpackValueError    (* a destructuring assignment of latent.py that
                         receives the wrong number of values *)
| TorchError.         (* any exception raised inside the framework *)

Inductive result (A : Type) : Type :=
| Ok (a : A)
| Raise (e : error).

Arguments Ok {A} a.
Arguments Raise {A} e.

Definition rbind {A B} (r : result A) (k : A -> result B) : result B :=
  match r with
  | Ok a => k a
  | Raise e => Raise e
  end.

Fixpoint rmap_list {A B} (f : A -> result B) (l : list A) : result (list B) :=
  match l with
  | [] => Ok []
  | a :: l' =>
      rbind (f a) (fun b => rbind (rmap_list f l') (fun bs => Ok (b :: bs)))
  end.

(** State-and-error computations over an object of type [S]. *)
Definition M (S A : Type) : Type := S -> S * result A.

Definition ret {S A} (a : A) : M S A := fun s => (s, Ok a).

Definition bind {S A B} (m : M S A) (k : A -> M S B) : M S B :=
  fun s =>
    match m s with
    | (s', Ok a) => k a s'
    | (s', Raise e) => (s', Raise e)
    end.

(** Reading an attribute of [self]. *)
Definition attr {S A} (f : S -> A) : M S A := fun s => (s, Ok (f s)).

(** Assigning to [self]. *)
Definition assign {S} (f : S -> S) : M S unit := fun s => (f s, Ok tt).

(** A call that does not touch [self]. *)
Definition lift {S A} (r : result A) : M S A := fun s => (s, r).

(** Calling a submodule held in an attribute of [self]. *)
Definition call {S T A} (get : S -> T) (set : T -> S -> S) (m : M T A) : M S A :=
  fun s => let (t', r) := m (get s) in (set t' s, r).

Definition run {S A} (m : M S A) (self : S) : result A := snd (m self).
Definition after {S A} (m : M S A) (self : S) : S := fst (m self).

Declare Scope py_scope.
Delimit Scope py_scope with py.
Notation "x <- m ;; k" := (bind m (fun x => k))
  (at level 61, m at next level, right associativity) : py_scope.
Notation "' pat <- m ;; k" := (bind m (fun x => match x with pat => k end))
  (at level 61, pat pattern, m at next level, right associativity) : py_scope.

(* ------------------------------------------------------------------ *)
(** ** Floating-point numbers *)

(** Entries of a tensor: IEEE 754 binary32 (24 bits of precision). *)
Definition float32 : Type := spec_float.

(** Python floats: IEEE 754 binary64 (53 bits of precision). *)
Definition float64 : Type := spec_float.

Definition f32_add : float32 -> float32 -> float32 := SFadd 24 128.
Definition f32_mul : float32 -> float32 -> float32 := SFmul 24 128.

(** [0.0] and [1.0] in binary32. *)
Definition f32_zero : float32 := S754_zero false.
Definition f32_one : float32 := S754_finite false 8388608 (-23).

(** Rounding of a Python float to binary32, to nearest even. *)
Definition to_float32 (x : float64) : float32 :=
  match x with
  | S754_finite s m e => binary_round 24 128 s m e
  | _ => x
  end.

(** The integer [n] as a binary32 number. *)
Definition f32_of_Z (n : Z) : float32 := binary_normalize 24 128 n 0 false.

(** [0 < v] *)
Definition is_positive (v : float32) : bool := SFltb f32_zero v.

(** Neither NaN nor infinite. *)
Definition is_real (v : float32) : bool :=
  match v with
  | S754_zero _ | S754_finite _ _ _ => true
  | S754_infinity _ | S754_nan => false
  end.

(** The Python floats the file writes: [0.0], [1.0], [2.0], [0.1],
    [1e-5]. *)
Definition f64_zero : float64 := S754_zero false.
Definition f64_one : float64 := S754_finite false 4503599627370496 (-52).
Definition f64_two : float64 := S754_finite false 4503599627370496 (-51).
Definition f64_tenth : float64 := S754_finite false 7205759403792794 (-56).
Definition f64_1e_5 : float64 := S754_finite false 5902958103587057 (-69).

(** [math.sqrt] and [np.sqrt] on a Python float. *)
Definition f64_sqrt : float64 -> float64 := SFsqrt 53 1024.

(* ------------------------------------------------------------------ *)
(** ** Tensors *)

Record tensor : Type := mkTensor { shape : list nat; data : list float32 }.

Definition numel (s : list nat) : nat := fold_right Nat.mul 1 s.

(** [t.size()] *)
Definition size (t : tensor) : list nat := shape t.

(** [t.size(i)]; the framework raises IndexError out of range. *)
Definition size_at (t : tensor) (i : nat) : result nat :=
  match nth_error (shape t) i with
  | Some n => Ok n
  | None => Raise TorchError
  end.

(** Size of the last dimension, when there is one. *)
Definition last_dim (t : tensor) : option nat :=
  match rev (shape t) with
  | [] => None
  | n :: _ => Some n
  end.

(** The [k] consecutive blocks of [n] entries of a storage. *)
Definition blocks (k n : nat) (d : list float32) : list (list float32) :=
  map (fun i => firstn n (skipn (i * n) d)) (seq 0 k).

(** Pointwise operations. *)
Definition tmap (f : float32 -> float32) (t : tensor) : tensor :=
  mkTensor (shape t) (map f (data t)).

Definition zeros (s : list nat) : tensor :=
  mkTensor s (repeat f32_zero (numel s)).
Definition ones (s : list nat) : tensor :=
  mkTensor s (repeat f32_one (numel s)).
Definition ones_like (t : tensor) : tensor := tmap (fun _ => f32_one) t.
Definition fill_ (t : tensor) (v : float64) : tensor :=
  tmap (fun _ => to_float32 v) t.

(** [t * c] and [t + c] for a Python float [c]: the float is rounded to
    the dtype of the tensor and the operation is done in binary32. *)
Definition mul_scalar (t : tensor) (c : float64) : tensor :=
  tmap (fun v => f32_mul v (to_float32 c)) t.
Definition add_scalar (t : tensor) (c : float64) : tensor :=
  tmap (fun v => f32_add v (to_float32 c)) t.

(** [t.view(s)] for an explicit shape. *)
Definition view (t : tensor) (s : list nat) : result tensor :=
  if numel s =? numel (shape t) then Ok (mkTensor s (data t))
  else Raise TorchError.

(** [t.view(n, -1)]: the second size is inferred; the framework refuses
    when it cannot be. *)
Definition view_rows (t : tensor) (n : nat) : result tensor :=
  let total := numel (shape t) in
  if n =? 0 then Raise TorchError
  else if total mod n =? 0 then Ok (mkTensor [n; total / n] (data t))
  else Raise TorchError.

(** *** Concatenation along the last dimension *)

Definition shape_eqb (a b : list nat) : bool :=
  if list_eq_dec Nat.eq_dec a b then true else false.

(** [torch.cat] skips one-dimensional empty tensors. *)
Definition cat_skips (t : tensor) : bool := shape_eqb (shape t) [0].

Definition row (t : tensor) (n i : nat) : list float32 :=
  firstn n (skipn (i * n) (data t)).

Definition last_or0 (t : tensor) : nat :=
  match last_dim t with Some n => n | None => 0 end.

(** [torch.cat(ts, dim=-1)] *)
Definition cat (ts : list tensor) : result tensor :=
  match ts with
  | [] => Raise TorchError
  | _ =>
      match filter (fun t => negb (cat_skips t)) ts with
      | [] => Ok (mkTensor [0] [])
      | t0 :: rest =>
          let lead := removelast (shape t0) in
          if forallb (fun t => match shape t with
                               | [] => false
                               | _ => shape_eqb (removelast (shape t)) lead
                               end) (t0 :: rest)
          then
            Ok (mkTensor
                  (lead ++ [fold_right Nat.add 0 (map last_or0 (t0 :: rest))])
                  (flat_map (fun i => flat_map (fun t => row t (last_or0 t) i)
                                               (t0 :: rest))
                            (seq 0 (numel lead))))
          else Raise TorchError
      end
  end.

(** *** Splitting the last dimension in two *)

(** [torch.chunk(t, 2, dim=-1)]: pieces of [ceil(n/2)] columns; a last
    dimension of size 1 gives a single piece, one of size 0 two empty
    pieces. *)
Definition chunk2 (t : tensor) : result (list tensor) :=
  match last_dim t with
  | None => Raise TorchError
  | Some n =>
      let lead := removelast (shape t) in
      let rows := blocks (numel lead) n (data t) in
      let split_size := (n + 1) / 2 in
      let piece (from len : nat) :=
        mkTensor (lead ++ [len])
                 (flat_map (fun r => firstn len (skipn from r)) rows) in
      if n =? 0 then Ok [piece 0 0; piece 0 0]
      else if n <=? split_size then Ok [piece 0 n]
      else Ok [piece 0 split_size; piece split_size (n - split_size)]
  end.

(** [a, b = pieces] *)
Definition unpack2 {A} (l : list A) : result (A * A) :=
  match l with
  | [a; b] => Ok (a, b)
  | _ => Raise UnpackValueError
  end.

(** *** Broadcasting *)

Fixpoint broadcast_rev (a b : list nat) : option (list nat) :=
  match a, b with
  | [], _ => Some b
  | _, [] => Some a
  | x :: a', y :: b' =>
      match broadcast_rev a' b' with
      | None => None
      | Some s =>
          if x =? y then Some (x :: s)
          else if x =? 1 then Some (y :: s)
          else if y =? 1 then Some (x :: s)
          else None
      end
  end.

(** The common shape of two shapes, aligned on the right. *)
Definition broadcast_shapes (a b : list nat) : option (list nat) :=
  option_map (@rev nat) (broadcast_rev (rev a) (rev b)).

(** Storage of a tensor of shape [src] expanded to shape [tgt] of the
    same rank: a dimension of size 1 is repeated. *)
Fixpoint expand_data (src tgt : list nat) (d : list float32)
  : list float32 :=
  match src, tgt with
  | s :: src', t :: tgt' =>
      if s =? t
      then flat_map (expand_data src' tgt') (blocks s (numel src') d)
      else concat (repeat (expand_data src' tgt' d) t)
  | _, _ => d
  end.

Definition expand (t : tensor) (tgt : list nat) : tensor :=
  let src := repeat 1 (length tgt - length (shape t)) ++ shape t in
  mkTensor tgt (expand_data src tgt (data t)).

(* ------------------------------------------------------------------ *)
(** ** Framework layers *)

Inductive activation : Type :=
| LeakyReLU (negative_slope : float64)
| ReLU.

(** The [nn.Module]s this file builds, with their parameter tensors. *)
Inductive layer : Type :=
| Linear (weight bias : tensor)
| Conv2d (weight bias : tensor) (stride padding : nat)
| ConvTranspose2d (weight bias : tensor) (stride padding output_padding : nat)
| Activation (a : activation).

(** [nn.Sequential] and [nn.ModuleList] *)
Definition Sequential : Type := list layer.
Definition ModuleList : Type := list layer.

(** What the embedding takes from the framework without defining it:
    whether distributions validate their arguments (the default depends
    on the version), the values drawn at construction, [F.linear] and
    the two convolutions, [nn.init.orthogonal_], which returns the new
    content of the tensor it is given, and the kernels that
    [F.softplus], [torch.tanh], [F.leaky_relu] and [nn.ReLU] apply to
    each entry.  [None] stands for an exception raised inside the
    framework. *)
Class Torch : Type := {
  validate_args : bool;
  default_init : list nat -> list float32;
  linear : tensor -> tensor -> tensor -> option tensor;
  conv2d : tensor -> tensor -> tensor -> nat -> nat -> option tensor;
  conv_transpose2d :
    tensor -> tensor -> tensor -> nat -> nat -> nat -> option tensor;
  orthogonal_ : tensor -> float64 -> option tensor;
  softplus_kernel : float32 -> float32;
  tanh_kernel : float32 -> float32;
  leaky_relu_kernel : float64 -> float32 -> float32;
  relu_kernel : float32 -> float32
}.

Definition from_torch {A} (o : option A) : result A :=
  match o with
  | Some a => Ok a
  | None => Raise TorchError
  end.

(** The helpers imported from [network/base.py]. *)
Class Base : Type := {
  initializer : Type;
  weights_init_xavier : initializer;
  create_linear_network :
    nat -> nat -> list nat -> activation -> initializer -> Sequential;
  tie_weights : Sequential -> Sequential -> Sequential
}.

(** *** The normal distribution *)

Record Normal : Type := mkNormal { loc : tensor; scale : tensor }.

(** [constraints.positive] on every entry *)
Definition positive (t : tensor) : bool := forallb is_positive (data t).

(** [constraints.real] on every entry *)
Definition real (t : tensor) : bool := forallb is_real (data t).

(** The arguments of a [Normal] that pass its validation. *)
Definition accepted (d : Normal) : bool := real (loc d) && positive (scale d).

(** [Normal(loc=l, scale=s)]: both arguments are broadcast to their
    common shape; when arguments are validated, a mean that is not real
    everywhere or a scale that is not positive everywhere is refused. *)
Definition Normal_init {torch : Torch} (l s : tensor) : result Normal :=
  match broadcast_shapes (shape l) (shape s) with
  | Some sh =>
      let d := mkNormal (expand l sh) (expand s sh) in
      if validate_args && negb (accepted d) then Raise TorchError
      else Ok d
  | None => Raise TorchError
  end.

Section Layers.
Context {torch : Torch}.

(** [F.softplus], [torch.tanh], [F.leaky_relu] and [nn.ReLU]: the kernel
    of the framework on every entry. *)
Definition softplus (t : tensor) : tensor := tmap softplus_kernel t.
Definition torch_tanh (t : tensor) : tensor := tmap tanh_kernel t.
Definition leaky_relu (t : tensor) (negative_slope : float64) : tensor :=
  tmap (leaky_relu_kernel negative_slope) t.
Definition relu (t : tensor) : tensor := tmap relu_kernel t.

(** [nn.Linear(i, o)], [nn.Conv2d(i, o, k, s, p)] and
    [nn.ConvTranspose2d(i, o, k, s, p, op)]; an integer kernel size
    [k] stands for the kernel [(k, k)]. *)
Definition nn_Linear (i o : nat) : layer :=
  Linear (mkTensor [o; i] (default_init [o; i]))
         (mkTensor [o] (default_init [o])).

Definition nn_Conv2d (i o k stride padding : nat) : layer :=
  Conv2d (mkTensor [o; i; k; k] (default_init [o; i; k; k]))
         (mkTensor [o] (default_init [o]))
         stride padding.

Definition nn_ConvTranspose2d (i o k stride padding output_padding : nat)
  : layer :=
  ConvTranspose2d (mkTensor [i; o; k; k] (default_init [i; o; k; k]))
                  (mkTensor [o] (default_init [o]))
                  stride padding output_padding.

(** Calling a layer: it reads its parameters and writes none. *)
Definition layer_forward (m : layer) (x : tensor) : result tensor :=
  match m with
  | Linear w b => from_torch (linear x w b)
  | Conv2d w b s p => from_torch (conv2d x w b s p)
  | ConvTranspose2d w b s p op => from_torch (conv_transpose2d x w b s p op)
  | Activation (LeakyReLU a) => Ok (leaky_relu x a)
  | Activation ReLU => Ok (relu x)
  end.

Fixpoint Sequential_forward (net : Sequential) (x : tensor) : result tensor :=
  match net with
  | [] => Ok x
  | m :: net' => rbind (layer_forward m x) (Sequential_forward net')
  end.

(** [self.convs[i](x)] *)
Definition call_item (ms : ModuleList) (i : nat) (x : tensor) : result tensor :=
  match nth_error ms i with
  | Some m => layer_forward m x
  | None => Raise TorchError
  end.

(** [for i in range(n): x = F.leaky_relu(ms[i](x), negative_slope=slope)],
    the loop of both [Decoder.forward] and [Encoder.forward], over the
    indices [idx]. *)
Fixpoint conv_loop (ms : ModuleList) (slope : float64) (idx : list nat)
         (x : tensor) : result tensor :=
  match idx with
  | [] => Ok x
  | i :: idx' =>
      rbind (call_item ms i x) (fun y =>
      conv_loop ms slope idx' (leaky_relu y slope))
  end.

(** *** weight_init *)

(** [w[:, :, mid, mid]] of a rank-4 weight *)
Definition get_center (w : tensor) (mid : nat) : result tensor :=
  match shape w with
  | [d0; d1; k2; k3] =>
      if (mid <? k2) && (mid <? k3) then
        Ok (mkTensor [d0; d1]
              (map (fun blk => nth (mid * k3 + mid) blk f32_zero)
                   (blocks (d0 * d1) (k2 * k3) (data w))))
      else Raise TorchError
  | _ => Raise TorchError
  end.

Fixpoint update_nth (i : nat) (v : float32) (l : list float32)
  : list float32 :=
  match l, i with
  | [], _ => []
  | _ :: l', O => v :: l'
  | a :: l', S i' => a :: update_nth i' v l'
  end.

(** Writing [c] back through the view [w[:, :, mid, mid]] *)
Definition set_center (w : tensor) (mid : nat) (c : tensor) : tensor :=
  match shape w with
  | [d0; d1; k2; k3] =>
      mkTensor (shape w)
        (concat (map (fun p => update_nth (mid * k3 + mid) (snd p) (fst p))
                     (combine (blocks (d0 * d1) (k2 * k3) (data w))
                              (data c))))
  | _ => w
  end.

(** [nn.init.calculate_gain('relu')], which is [math.sqrt(2.0)] *)
Definition calculate_gain_relu : float64 := f64_sqrt f64_two.

Definition conv_weight_init (w b : tensor) : result (tensor * tensor) :=
  rbind (size_at w 2) (fun k2 =>
  rbind (size_at w 3) (fun k3 =>
  if k2 =? k3 then
    let w := fill_ w f64_zero in
    let b := fill_ b f64_zero in
    let mid := k2 / 2 in
    let gain := calculate_gain_relu in
    rbind (get_center w mid) (fun c =>
    rbind (from_torch (orthogonal_ c gain)) (fun c' =>
    Ok (set_center w mid c', b)))
  else Raise AssertionError)).

(** [weight_init(m)], returning the module as it leaves it. *)
Definition weight_init (m : layer) : result layer :=
  match m with
  | Linear w b =>
      rbind (from_torch (orthogonal_ w f64_one)) (fun w' =>
      Ok (Linear w' (fill_ b f64_zero)))
  | Conv2d w b s p =>
      rbind (conv_weight_init w b) (fun wb =>
      Ok (Conv2d (fst wb) (snd wb) s p))
  | ConvTranspose2d w b s p op =>
      rbind (conv_weight_init w b) (fun wb =>
      Ok (ConvTranspose2d (fst wb) (snd wb) s p op))
  | Activation a => Ok (Activation a)
  end.

(** [module.apply(weight_init)] over a list of child layers *)
Definition apply_weight_init (ms : list layer) : result (list layer) :=
  rmap_list weight_init ms.
End Layers.

(** Python truth value of a float: only the zeros are false.  ([None],
    the other false value a [std] can take, is the [None] of
    [option float64].) *)
Definition nonzero (s : float64) : bool :=
  match s with
  | S754_zero _ => false
  | _ => true
  end.

(** What a [forward] may be given: a tensor, a list or a tuple. *)
Inductive input : Type :=
| Tensor (x : tensor)
| PyList (xs : list tensor)
| PyTuple (xs : list tensor).

(** [1e-5] *)
Definition eps : float64 := f64_1e_5.

(* ------------------------------------------------------------------ *)
(** ** class Gaussian *)

Module Gaussian.
Record t : Type := mk { net : Sequential; std : option float64 }.

Section Methods.
Context {torch : Torch} {base : Base}.

Definition __init__ (input_dim output_dim : nat) (hidden_units : list nat)
           (std : option float64) (leaky_slope : float64) : t :=
  mk (create_linear_network
        input_dim
        (match std with None => 2 * output_dim | Some _ => output_dim end)
        hidden_units (LeakyReLU leaky_slope) weights_init_xavier)
     std.

(** The branch of [forward] that learns the scale. *)
Definition learned_std (x : tensor) : result Normal :=
  rbind (chunk2 x) (fun pieces =>
  rbind (unpack2 pieces) (fun ms =>
  let mean := fst ms in
  let std := add_scalar (softplus (snd ms)) eps in
  Normal_init mean std)).

(** The branch of [forward] with the scale fixed at construction. *)
Definition fixed_std (x : tensor) (s : float64) : result Normal :=
  let mean := x in
  let std := mul_scalar (ones_like mean) s in
  Normal_init mean std.

Definition forward (x : input) : M t Normal :=
  (x <- match x with
        | PyList xs | PyTuple xs => lift (cat xs)
        | Tensor x => ret x
        end ;;
   net <- attr net ;;
   x <- lift (Sequential_forward net x) ;;
   std <- attr std ;;
   match std with
   | Some s => if nonzero s then lift (fixed_std x s)
               else lift (learned_std x)
   | None => lift (learned_std x)
   end)%py.
End Methods.
End Gaussian.

(* ------------------------------------------------------------------ *)
(** ** class ConstantGaussian *)

Module ConstantGaussian.
Record t : Type := mk { output_dim : nat; std : float64 }.

Definition __init__ (output_dim : nat) (std : float64) : t :=
  mk output_dim std.

Section Methods.
Context {torch : Torch}.

Definition forward (x : tensor) : M t Normal :=
  (n <- lift (size_at x 0) ;;
   d <- attr output_dim ;;
   let mean := zeros [n; d] in
   n <- lift (size_at x 0) ;;
   d <- attr output_dim ;;
   s <- attr std ;;
   let std := mul_scalar (ones [n; d]) s in
   lift (Normal_init mean std))%py.
End Methods.
End ConstantGaussian.

(* ------------------------------------------------------------------ *)
(** ** class Decoder *)

Module Decoder.
Record t : Type :=
  mk { std : float64; leaky_slope : float64; convts : ModuleList }.

Section Methods.
Context {torch : Torch}.

Definition __init__ (input_dim output_dim : nat) (std leaky_slope : float64)
           (bot_dim : nat) : result t :=
  let convts :=
    [ nn_ConvTranspose2d input_dim 64 27 1 0 0;
      nn_ConvTranspose2d 64 64 3 1 1 0;
      nn_ConvTranspose2d 64 64 3 2 1 1;
      nn_ConvTranspose2d 64 32 3 1 1 0;
      nn_ConvTranspose2d 32 32 3 2 1 1;
      nn_ConvTranspose2d 32 32 5 2 2 1;
      nn_Conv2d 32 64 3 1 1;
      nn_Conv2d 64 64 3 1 1;
      nn_Conv2d 64 output_dim 3 1 1 ] in
  rbind (apply_weight_init convts) (fun convts =>
  Ok (mk std leaky_slope convts)).

Definition forward (latent : tensor) : M t Normal :=
  ('(num_batches, latent_dim) <-
      lift (match size latent with
            | [a; b] => Ok (a, b)
            | _ => Raise UnpackValueError
            end) ;;
   latent <- lift (view latent [num_batches; latent_dim; 1; 1]) ;;
   convts <- attr convts ;;
   slope <- attr leaky_slope ;;
   latent <- lift (conv_loop convts slope (seq 0 8) latent) ;;
   y <- lift (call_item convts 8 latent) ;;
   let recon := torch_tanh y in
   std <- attr std ;;
   lift (Normal_init recon (mul_scalar (ones_like recon) std)))%py.
End Methods.
End Decoder.

(* ------------------------------------------------------------------ *)
(** ** class Encoder *)

Module Encoder.
Record t : Type :=
  mk { convs : ModuleList; leaky_slope : float64; gau : Gaussian.t }.

Definition set_gau (g : Gaussian.t) (self : t) : t :=
  mk (convs self) (leaky_slope self) g.

Section Methods.
Context {torch : Torch} {base : Base}.

Definition __init__ (input_dim latent_dim : nat) (hidden_units : list nat)
           (leaky_slope : float64) : result t :=
  let convs :=
    [ nn_Conv2d input_dim 32 5 2 2;
      nn_Conv2d 32 32 3 2 1;
      nn_Conv2d 32 64 3 1 1;
      nn_Conv2d 64 64 3 2 1;
      nn_Conv2d 64 64 3 1 1;
      nn_Conv2d 64 64 1 1 0 ] in
  let gau :=
    Gaussian.__init__ (27 * 27 * 64) latent_dim hidden_units None
                      leaky_slope in
  rbind (apply_weight_init convs) (fun convs =>
  rbind (apply_weight_init (Gaussian.net gau)) (fun net =>
  Ok (mk convs leaky_slope (Gaussian.mk net (Gaussian.std gau))))).

Definition forward (x : tensor) : M t (tensor * Normal) :=
  ('(num_batches, _) <-
      lift (match size x with
            | [n; c; h; w] => Ok (n, (c, h, w))
            | _ => Raise UnpackValueError
            end) ;;
   convs <- attr convs ;;
   slope <- attr leaky_slope ;;
   x <- lift (conv_loop convs slope (seq 0 6) x) ;;
   x <- lift (view_rows x num_batches) ;;
   dist <- call gau set_gau (Gaussian.forward (Tensor x)) ;;
   ret (loc dist, dist))%py.
End Methods.
End Encoder.

(* ------------------------------------------------------------------ *)
(** ** class LatentNetwork *)

Module LatentNetwork.
Record t : Type := mk { encoder : Encoder.t; decoder : Decoder.t }.

Section Methods.
Context {torch : Torch} {base : Base}.

Definition __init__ (observation_shape latent_dim : nat)
           (leaky_slope : float64) (hidden_units : list nat) : result t :=
  rbind (Encoder.__init__ observation_shape latent_dim hidden_units
                          leaky_slope) (fun encoder =>
  rbind (Decoder.__init__ latent_dim observation_shape (f64_sqrt f64_tenth)
                          leaky_slope 10) (fun decoder =>
  Ok (mk encoder decoder))).
End Methods.
End LatentNetwork.

(* ------------------------------------------------------------------ *)
(** ** class TaskNetwork *)

Module TaskNetwork.
Record t : Type := mk { net : Sequential }.

Section Methods.
Context {torch : Torch} {base : Base}.

Definition __init__ (input_dim output_dim : nat) (hidden_units : list nat)
           (init : initializer) : t :=
  mk (create_linear_network input_dim (output_dim * 2) hidden_units
                            ReLU init).

Definition forward (x : input) : M t (list tensor) :=
  (x <- match x with
        | PyList xs => lift (cat xs)
        | Tensor x => ret x
        | PyTuple _ => lift (Raise TorchError)
        end ;;
   net <- attr net ;;
   y <- lift (Sequential_forward net x) ;;
   pieces <- lift (chunk2 y) ;;
   '(gamma, bias) <- lift (unpack2 pieces) ;;
   ret [gamma; bias])%py.

Definition copy_conv_weights_from (source : t) : M t unit :=
  assign (fun self => mk (tie_weights (net source) (net self))).
End Methods.
End TaskNetwork.

(* ------------------------------------------------------------------ *)
(** ** A small instance for concrete runs *)

Module Sample.
(** The leaky slope of the runs, [0.2]. *)
Definition slope : float64 := S754_finite false 7205759403792794 (-55).

(** [F.linear] with every sum taken from right to left. *)
Definition dot (a b : list float32) : float32 :=
  fold_right f32_add f32_zero
             (map (fun p => f32_mul (fst p) (snd p)) (combine a b)).

Definition linear_sum (x w b : tensor) : option tensor :=
  match shape w, last_dim x with
  | [out_features; in_features], Some n =>
      if n =? in_features then
        let lead := removelast (shape x) in
        Some (mkTensor
                (lead ++ [out_features])
                (flat_map
                   (fun r => map (fun j => f32_add
                                             (dot r (row w in_features j))
                                             (nth j (data b) f32_zero))
                                 (seq 0 out_features))
                   (blocks (numel lead) n (data x))))
      else None
  | _, _ => None
  end.

(** The kernels where they need no transcendental function, and
    stand-ins elsewhere.  [tanh] is 1 above 10 and -1 under -10 in
    binary32, and keeps NaN; between, the stand-in keeps its argument
    within -1 and 1. *)
Definition clamp (v : float32) : float32 :=
  match v with
  | S754_nan => S754_nan
  | _ => if SFltb v (f32_of_Z (-1)) then f32_of_Z (-1)
         else if SFltb f32_one v then f32_one else v
  end.

(** [softplus] keeps NaN and, with the default threshold, returns its
    argument above 20; under it the stand-in is 1. *)
Definition linear_above_20 (v : float32) : float32 :=
  match v with
  | S754_nan => S754_nan
  | _ => if SFltb (f32_of_Z 20) v then v else f32_one
  end.

(** [x if x > 0 else x * negative_slope] *)
Definition leaky (negative_slope : float64) (v : float32) : float32 :=
  if SFltb f32_zero v then v else f32_mul v (to_float32 negative_slope).

(** [x if not x < 0 else 0] *)
Definition ramp (v : float32) : float32 :=
  if SFltb v f32_zero then f32_zero else v.

(** A framework that does not validate the arguments of a
    distribution, whose convolutions return their input, whose initial
    values are zero and whose orthogonal initialiser keeps the tensor. *)
Definition torch : Torch :=
  {| validate_args := false;
     default_init := fun s => repeat f32_zero (numel s);
     linear := linear_sum;
     conv2d := fun x _ _ _ _ => Some x;
     conv_transpose2d := fun x _ _ _ _ _ => Some x;
     orthogonal_ := fun t _ => Some t;
     softplus_kernel := linear_above_20;
     tanh_kernel := clamp;
     leaky_relu_kernel := leaky;
     relu_kernel := ramp |}.

(** A [base.py] whose linear network is one linear layer with all
    weights 1 and bias 0. *)
Definition base : Base :=
  {| initializer := unit;
     weights_init_xavier := tt;
     create_linear_network := fun i o _ _ _ =>
       [Linear (mkTensor [o; i] (repeat f32_one (o * i)))
               (mkTensor [o] (repeat f32_zero o))];
     tie_weights := fun src _ => src |}.

Definition x12 : tensor := mkTensor [1; 2] [f32_of_Z 24; f32_of_Z 40].
Definition y12 : tensor := mkTensor [1; 2] [f32_of_Z 5; f32_of_Z 7].
Definition x11 : tensor := mkTensor [1; 1] [f32_of_Z 24].
Definition image : tensor := mkTensor [1; 2; 1; 1] [f32_of_Z 24; f32_of_Z 40].
Definition vec3 : tensor := mkTensor [3] [f32_zero; f32_zero; f32_zero].
Definition nan12 : tensor := mkTensor [1; 2] [S754_nan; S754_nan].

(** Heads over two input features. *)
Definition learned : Gaussian.t :=
  @Gaussian.__init__ base 2 1 [256; 256] None slope.
Definition fixed : Gaussian.t :=
  @Gaussian.__init__ base 2 2 [256; 256] (Some f64_one) slope.
Definition zero_std (output_dim : nat) : Gaussian.t :=
  @Gaussian.__init__ base 2 output_dim [256; 256] (Some f64_zero) slope.

Definition constant : ConstantGaussian.t :=
  ConstantGaussian.__init__ 3 f64_one.

Definition task : TaskNetwork.t :=
  @TaskNetwork.__init__ base 2 1 [256; 256] tt.

Definition id_conv : layer :=
  Conv2d (mkTensor [1; 1; 1; 1] [f32_one]) (mkTensor [1] [f32_zero]) 1 0.

Definition encoder : Encoder.t :=
  Encoder.mk (repeat id_conv 6) slope learned.

Definition decoder : Decoder.t :=
  Decoder.mk f64_one slope (repeat id_conv 9).

(** A convolution with a kernel that is not square. *)
Definition wide_conv : layer :=
  Conv2d (mkTensor [1; 1; 1; 2] [f32_zero; f32_zero])
         (mkTensor [1] [f32_zero]) 1 0.
End Sample.

(* ------------------------------------------------------------------ *)
(** ** A second instance, with a linear network of any input size *)

Module Light.
(** A [base.py] whose linear network is its hidden activation alone, so
    that it takes rows of any length. *)
Definition base : Base :=
  {| initializer := unit;
     weights_init_xavier := tt;
     create_linear_network := fun _ _ _ a _ => [Activation a];
     tie_weights := fun src _ => src |}.

(** A framework like [Sample.torch] that validates the arguments of a
    distribution. *)
Definition strict_torch : Torch :=
  {| validate_args := true;
     default_init := fun s => repeat f32_zero (numel s);
     linear := Sample.linear_sum;
     conv2d := fun x _ _ _ _ => Some x;
     conv_transpose2d := fun x _ _ _ _ _ => Some x;
     orthogonal_ := fun t _ => Some t;
     softplus_kernel := Sample.linear_above_20;
     tanh_kernel := Sample.clamp;
     leaky_relu_kernel := Sample.leaky;
     relu_kernel := Sample.ramp |}.

(** Python floats of the runs: [1e-50] and [-1.0]. *)
Definition tiny : float64 := S754_finite false 8424983333484575 (-219).
Definition minus_one : float64 := S754_finite true 4503599627370496 (-52).
End Light.

(* ------------------------------------------------------------------ *)
(** ** Predicates of the statements *)

(** A binary32 number and a Python float that are the same number, as
    [v == s] tests it in Python. *)
Definition same_number (v : float32) (s : float64) : bool :=
  match v, s with
  | S754_zero _, S754_zero _ => true
  | S754_infinity a, S754_infinity b => Bool.eqb a b
  | S754_finite a m e, S754_finite b n f =>
      Bool.eqb a b &&
      (Z.shiftl (Zpos m) (e - Z.min e f) =? Z.shiftl (Zpos n) (f - Z.min e f))%Z
  | _, _ => false
  end.

(** [1.0 * std] in binary32, an entry of [ones * std]. *)
Definition ones_times (std : float64) : float32 :=
  f32_mul f32_one (to_float32 std).

(** A computation that leaves the object it runs on as it found it. *)
Definition leaves_unchanged {S A} (m : M S A) : Prop :=
  forall self, after m self = self.

(** A layer that is not a convolution. *)
Definition no_conv (m : layer) : Prop :=
  match m with
  | Conv2d _ _ _ _ | ConvTranspose2d _ _ _ _ _ => False
  | _ => True
  end.

(** A convolution whose weight has a square kernel; no condition on the
    other layers. *)
Definition square_kernel (m : layer) : Prop :=
  match m with
  | Conv2d w _ _ _ | ConvTranspose2d w _ _ _ _ =>
      exists a b k, shape w = [a; b; k; k]
  | _ => True
  end.

(** A result that, if it is an exception, is one of the framework. *)
Definition fails_only_in_torch {A} (r : result A) : Prop :=
  forall e, r = Raise e -> e = TorchError.

(** A result that is not a failed [assert]. *)
Definition never_asserts {A} (r : result A) : Prop :=
  r <> Raise AssertionError.

(** The storage of a tensor has as many entries as its shape says. *)
Definition well_formed (t : tensor) : Prop :=
  length (data t) = numel (shape t).

(** The tensor a [forward] works on once a list has been concatenated. *)
Definition as_tensor (x : input) : result tensor :=
  match x with
  | Tensor x => Ok x
  | PyList xs | PyTuple xs => cat xs
  end.

(** The weight of a convolution. *)
Definition conv_weight (m : layer) : option tensor :=
  match m with
  | Conv2d w _ _ _ | ConvTranspose2d w _ _ _ _ => Some w
  | _ => None
  end.

(** The bias of a layer that has one. *)
Definition bias_of (m : layer) : option tensor :=
  match m with
  | Linear _ b | Conv2d _ b _ _ | ConvTranspose2d _ b _ _ _ => Some b
  | Activation _ => None
  end.

(** What of a layer is architecture rather than parameter value: its
    kind, the shapes of its bias and (for a convolution) of its weight,
    its stride and paddings. *)
Inductive signature : Type :=
| SigLinear (bias_shape : list nat)
| SigConv2d (weight_shape bias_shape : list nat) (stride padding : nat)
| SigConvTranspose2d (weight_shape bias_shape : list nat)
                     (stride padding output_padding : nat)
| SigActivation (a : activation).

Definition signature_of (m : layer) : signature :=
  match m with
  | Linear _ b => SigLinear (shape b)
  | Conv2d w b s p => SigConv2d (shape w) (shape b) s p
  | ConvTranspose2d w b s p op =>
      SigConvTranspose2d (shape w) (shape b) s p op
  | Activation a => SigActivation a
  end.

(** Every entry of the bias of a layer is 0. *)
Definition zero_bias (m : layer) : Prop :=
  match bias_of m with
  | Some b => Forall (fun v => v = f32_zero) (data b)
  | None => True
  end.

(* ================================================================== *)
(** * Properties *)

Unset Implicit Arguments.

(** ** Results *)

Lemma rbind_Ok {A B} (r : result A) (k : A -> result B) (b : B) :
  rbind r k = Ok b -> exists a, r = Ok a /\ k a = Ok b.
Proof. destruct r as [a | e]; simpl; [eauto | discriminate]. Qed.

(** Splits a successful sequence of calls into its successful steps. *)
Ltac steps H :=
  repeat match type of H with
         | rbind _ _ = Ok _ =>
             let a := fresh "r" in
             let E := fresh "E" in
             apply rbind_Ok in H; destruct H as [a [E H]]
         end.

(** ** Floats *)

(** Python floats and their binary32 roundings: [1e-5], [0.1],
    [sqrt(0.1)], [1e-50]. *)
Example to_float32_1e_5 :
  to_float32 f64_1e_5 = S754_finite false 10995116 (-40).
Proof. reflexivity. Qed.

Example to_float32_tenth :
  to_float32 f64_tenth = S754_finite false 13421773 (-27).
Proof. reflexivity. Qed.

Example f64_sqrt_tenth :
  f64_sqrt f64_tenth = S754_finite false 5696652996790543 (-54).
Proof. vm_compute. reflexivity. Qed.

Example to_float32_sqrt_tenth :
  to_float32 (f64_sqrt f64_tenth) = S754_finite false 10610843 (-25).
Proof. vm_compute. reflexivity. Qed.

Example to_float32_tiny : to_float32 Light.tiny = f32_zero.
Proof. reflexivity. Qed.

Example ones_times_one : ones_times f64_one = f32_one.
Proof. reflexivity. Qed.

(** A sum with NaN is NaN, and NaN is not positive. *)
Example f32_add_nan (c : float32) : f32_add S754_nan c = S754_nan.
Proof. reflexivity. Qed.

Example is_positive_nan : is_positive S754_nan = false.
Proof. reflexivity. Qed.

(** [1e-5] keeps a softplus that has underflowed to 0 positive. *)
Example f32_add_zero_eps :
  f32_add f32_zero (to_float32 eps) = S754_finite false 10995116 (-40) /\
  is_positive (f32_add f32_zero (to_float32 eps)) = true.
Proof. split; reflexivity. Qed.

Lemma positive_nonzero (s : float64) :
  SFltb f64_zero s = true -> nonzero s = true.
Proof. destruct s; simpl; [discriminate | reflexivity ..]. Qed.

(** *** Rounding keeps a number away from 0 *)

Section Rounding.
Local Open Scope Z_scope.

Lemma digits2_size (p : BinNums.positive) : digits2_pos p = Pos.size p.
Proof. induction p; simpl; congruence. Qed.

Lemma digits2_lower (p : BinNums.positive) : 2 ^ (Zpos (digits2_pos p) - 1) <= Zpos p.
Proof.
  rewrite digits2_size.
  pose proof (Pos.size_le p) as H.
  assert (E : (2 ^ Pos.size p)%positive = Z.to_pos (2 ^ Zpos (Pos.size p))).
  { rewrite <- Pos2Z.inj_pow. reflexivity. }
  assert (0 < 2 ^ Zpos (Pos.size p)) by (apply Z.pow_pos_nonneg; lia).
  replace (Zpos (Pos.size p)) with (Z.succ (Zpos (Pos.size p) - 1)) in * by lia.
  rewrite Z.pow_succ_r in * by lia.
  replace (Z.succ (Zpos (Pos.size p) - 1) - 1) with (Zpos (Pos.size p) - 1) by lia.
  assert (Zpos (2 ^ Pos.size p) <= Zpos p~0) by exact H.
  rewrite Pos2Z.inj_pow in H1.
  replace (Zpos (Pos.size p)) with (Z.succ (Zpos (Pos.size p) - 1)) in H1 by lia.
  rewrite Z.pow_succ_r in H1 by lia. lia.
Qed.

Lemma digits2_upper (p : BinNums.positive) : Zpos p < 2 ^ Zpos (digits2_pos p).
Proof.
  rewrite digits2_size. pose proof (Pos.size_gt p) as H.
  assert (Zpos p < Zpos (2 ^ Pos.size p)) by exact H.
  now rewrite Pos2Z.inj_pow in H0.
Qed.

Lemma digits2_from_lower (p : BinNums.positive) (k : Z) :
  2 ^ k <= Zpos p -> k < Zpos (digits2_pos p).
Proof.
  intros H. pose proof (digits2_upper p) as Hu.
  destruct (Z_lt_le_dec k (Zpos (digits2_pos p))) as [Hlt | Hle]; [exact Hlt |].
  assert (2 ^ Zpos (digits2_pos p) <= 2 ^ k) by (apply Z.pow_le_mono_r; lia).
  lia.
Qed.

Lemma shr_1_m (mrs : shr_record) :
  0 <= shr_m mrs -> shr_m (shr_1 mrs) = shr_m mrs / 2.
Proof.
  destruct mrs as [m r s]. cbn [shr_m]. intros H.
  rewrite <- Z.div2_div.
  destruct m as [| [p | p |] | p]; try reflexivity; lia.
Qed.

Lemma iter_shr_1_m (p : BinNums.positive) :
  forall mrs, 0 <= shr_m mrs ->
              shr_m (iter_pos shr_1 p mrs) = shr_m mrs / 2 ^ Zpos p.
Proof.
  induction p as [p IH | p IH |]; intros mrs H; cbn [iter_pos].
  - assert (H1 : 0 <= shr_m (shr_1 mrs)).
    { rewrite shr_1_m by exact H. apply Z.div_pos; lia. }
    assert (H2 : 0 <= shr_m (iter_pos shr_1 p (shr_1 mrs))).
    { rewrite IH by exact H1. apply Z.div_pos; [exact H1 |].
      apply Z.pow_pos_nonneg; lia. }
    rewrite IH by exact H2. rewrite IH by exact H1. rewrite shr_1_m by exact H.
    rewrite !Z.div_div by (try apply Z.pow_pos_nonneg; lia).
    f_equal. change 2 with (2 ^ 1) at 1.
    rewrite <- !Z.pow_add_r by lia. f_equal. lia.
  - assert (H2 : 0 <= shr_m (iter_pos shr_1 p mrs)).
    { rewrite IH by exact H. apply Z.div_pos; [exact H |].
      apply Z.pow_pos_nonneg; lia. }
    rewrite IH by exact H2. rewrite IH by exact H.
    rewrite !Z.div_div by (try apply Z.pow_pos_nonneg; lia).
    f_equal. rewrite <- !Z.pow_add_r by lia. f_equal. lia.
  - rewrite shr_1_m by exact H. reflexivity.
Qed.

Lemma shr_record_of_loc_m (m : Z) (l : location) :
  shr_m (shr_record_of_loc m l) = m.
Proof. destruct l as [| []]; reflexivity. Qed.

(** Shifting to the exponent of the format keeps a number that lies
    above the least positive binary32 number away from 0. *)
Lemma shr_fexp_lower (p : BinNums.positive) (e : Z) (l : location) :
  -149 < Zpos (digits2_pos p) + e ->
  exists n, 0 <= n < Zpos (digits2_pos p) /\
            snd (shr_fexp 24 128 (Zpos p) e l) = e + n /\
            shr_m (fst (shr_fexp 24 128 (Zpos p) e l)) = Zpos p / 2 ^ n.
Proof.
  intros H. unfold shr_fexp, shr. cbn [Zdigits2].
  set (d := Zpos (digits2_pos p)) in *.
  assert (Hf : fexp 24 128 (d + e) - e = Z.max (d - 24) (-149 - e)).
  { unfold fexp, emin. lia. }
  rewrite Hf.
  destruct (Z.max (d - 24) (-149 - e)) as [| n | n] eqn:En.
  - exists 0. cbn [fst snd]. rewrite shr_record_of_loc_m.
    repeat split; try lia. now rewrite Z.div_1_r.
  - exists (Zpos n). cbn [fst snd].
    rewrite iter_shr_1_m by (rewrite shr_record_of_loc_m; lia).
    rewrite shr_record_of_loc_m. repeat split; lia.
  - exists 0. cbn [fst snd]. rewrite shr_record_of_loc_m.
    repeat split; try lia. now rewrite Z.div_1_r.
Qed.

Lemma div_pow_lower (p : BinNums.positive) (n : Z) :
  0 <= n < Zpos (digits2_pos p) ->
  2 ^ (Zpos (digits2_pos p) - 1 - n) <= Zpos p / 2 ^ n.
Proof.
  intros H. pose proof (digits2_lower p) as Hl.
  apply Z.div_le_lower_bound; [apply Z.pow_pos_nonneg; lia |].
  rewrite <- Z.pow_add_r by lia.
  replace (n + (Zpos (digits2_pos p) - 1 - n)) with (Zpos (digits2_pos p) - 1) by lia.
  exact Hl.
Qed.

Lemma round_nearest_even_ge (m : Z) (l : location) :
  m <= round_nearest_even m l.
Proof.
  destruct l as [| []]; simpl; try lia. destruct (Z.even m); lia.
Qed.

Lemma binary_round_aux_positive (p : BinNums.positive) (e : Z) (l : location) :
  -149 < Zpos (digits2_pos p) + e ->
  is_positive (binary_round_aux 24 128 false (Zpos p) e l) = true.
Proof.
  intros H. unfold binary_round_aux.
  destruct (shr_fexp_lower p e l H) as [n [Hn [He Hm]]].
  destruct (shr_fexp 24 128 (Zpos p) e l) as [mrs' e'] eqn:E1.
  cbn [fst snd] in He, Hm. subst e'.
  pose proof (div_pow_lower p n Hn) as Hlow. rewrite <- Hm in Hlow.
  pose proof (round_nearest_even_ge (shr_m mrs') (loc_of_shr_record mrs')) as Hr.
  set (m2 := round_nearest_even (shr_m mrs') (loc_of_shr_record mrs')) in *.
  assert (Hp : 0 < 2 ^ (Zpos (digits2_pos p) - 1 - n))
    by (apply Z.pow_pos_nonneg; lia).
  destruct m2 as [| q | q] eqn:Eq; try lia.
  assert (Hd : Zpos (digits2_pos p) - 1 - n < Zpos (digits2_pos q))
    by (apply digits2_from_lower; lia).
  assert (H2 : -149 < Zpos (digits2_pos q) + (e + n)) by lia.
  destruct (shr_fexp_lower q (e + n) loc_Exact H2) as [n2 [Hn2 [He2 Hm2]]].
  destruct (shr_fexp 24 128 (Zpos q) (e + n) loc_Exact) as [mrs'' e''] eqn:E2.
  cbn [fst snd] in He2, Hm2.
  pose proof (div_pow_lower q n2 Hn2) as Hlow2. rewrite <- Hm2 in Hlow2.
  assert (Hp2 : 0 < 2 ^ (Zpos (digits2_pos q) - 1 - n2))
    by (apply Z.pow_pos_nonneg; lia).
  destruct (shr_m mrs'') as [| r | r]; try lia.
  destruct (e'' <=? 128 - 24); reflexivity.
Qed.

Lemma digits2_iter_xO (p k : BinNums.positive) :
  Zpos (digits2_pos (Pos.iter xO p k)) = Zpos (digits2_pos p) + Zpos k.
Proof.
  induction k as [| k IH] using Pos.peano_ind.
  - simpl. lia.
  - rewrite Pos.iter_succ. cbn [digits2_pos]. lia.
Qed.

Lemma binary_round_positive (p : BinNums.positive) (e : Z) :
  -149 < Zpos (digits2_pos p) + e ->
  is_positive (binary_round 24 128 false p e) = true.
Proof.
  intros H. unfold binary_round, shl_align.
  destruct (fexp 24 128 (Zpos (digits2_pos p) + e) - e) as [| k | k] eqn:E;
    try (now apply binary_round_aux_positive).
  apply binary_round_aux_positive. rewrite digits2_iter_xO. lia.
Qed.

Lemma digits2_mono (p q : BinNums.positive) :
  (p <= q)%positive -> Zpos (digits2_pos p) <= Zpos (digits2_pos q).
Proof.
  intros H. pose proof (digits2_lower p). 
  assert (Zpos (digits2_pos p) - 1 < Zpos (digits2_pos q)); [| lia].
  apply digits2_from_lower. lia.
Qed.

(** Adding [1e-5] to a binary32 number that is not negative and not
    NaN gives a positive number. *)
Lemma f32_add_eps_positive (u : float32) :
  SFleb f32_zero u = true ->
  is_positive (f32_add u (to_float32 eps)) = true.
Proof.
  change (to_float32 eps) with (S754_finite false 10995116 (-40)).
  unfold f32_add.
  destruct u as [s | s | | s m e]; try (destruct s); try discriminate;
    try reflexivity.
  intros _. unfold SFadd. cbv zeta. cbn [cond_Zopp].
  set (ez := Z.min e (-40)).
  set (a := fst (shl_align m e ez)).
  set (b := fst (shl_align 10995116 (-40) ez)).
  change (Zpos a + Zpos b) with (Zpos (a + b)).
  unfold binary_normalize. apply binary_round_positive.
  assert (Hb : Zpos (digits2_pos b) + ez = -16).
  { assert (Hd : Zpos (digits2_pos 10995116) = 24) by reflexivity.
    assert (Hz : ez <= -40) by apply Z.le_min_r.
    unfold b, shl_align.
    destruct (ez - -40) as [| k | k] eqn:E; cbn [fst];
      try rewrite digits2_iter_xO; rewrite Hd; lia. }
  assert (Zpos (digits2_pos b) <= Zpos (digits2_pos (a + b))).
  { apply digits2_mono. lia. }
  lia.
Qed.

(** *** Rounding returns numbers in canonical form *)

Lemma digits2_from_upper (p : BinNums.positive) (k : Z) :
  Zpos p < 2 ^ k -> Zpos (digits2_pos p) <= k.
Proof.
  intros H. pose proof (digits2_lower p) as Hl.
  destruct (Z_lt_le_dec k (Zpos (digits2_pos p))) as [Hlt | Hle]; [| exact Hle].
  assert (0 <= k).
  { destruct (Z_lt_le_dec k 0) as [Hn | Hn]; [| exact Hn].
    rewrite Z.pow_neg_r in H by exact Hn. lia. }
  assert (2 ^ k <= 2 ^ (Zpos (digits2_pos p) - 1)) by (apply Z.pow_le_mono_r; lia).
  lia.
Qed.

(** The number of digits of a quotient by a power of two. *)
Lemma digits2_div_pow (p q : BinNums.positive) (n : Z) :
  0 <= n -> Zpos p / 2 ^ n = Zpos q ->
  Zpos (digits2_pos q) = Zpos (digits2_pos p) - n.
Proof.
  intros Hn Hq.
  pose proof (digits2_lower p) as Hl. pose proof (digits2_upper p) as Hu.
  set (d := Zpos (digits2_pos p)) in *.
  assert (Hpow : 0 < 2 ^ n) by (apply Z.pow_pos_nonneg; lia).
  assert (Hnd : n < d).
  { destruct (Z_lt_le_dec n d) as [H | H]; [exact H |].
    assert (2 ^ d <= 2 ^ n) by (apply Z.pow_le_mono_r; lia).
    rewrite Z.div_small in Hq by lia. discriminate. }
  assert (H1 : 2 ^ (d - 1 - n) <= Zpos q).
  { rewrite <- Hq. apply Z.div_le_lower_bound; [exact Hpow |].
    rewrite <- Z.pow_add_r by lia.
    replace (n + (d - 1 - n)) with (d - 1) by lia. exact Hl. }
  assert (H2 : Zpos q < 2 ^ (d - n)).
  { rewrite <- Hq. apply Z.div_lt_upper_bound; [exact Hpow |].
    rewrite <- Z.pow_add_r by lia.
    replace (n + (d - n)) with d by lia. exact Hu. }
  apply digits2_from_lower in H1. apply digits2_from_upper in H2. lia.
Qed.

(** Shifting a mantissa that is not below the exponent of the format:
    the exponent reached is that of the format, and a mantissa that is
    left has lost as many digits as the exponent has gained. *)
Lemma shr_fexp_spec (p : BinNums.positive) (e : Z) (l : location) :
  e <= fexp 24 128 (Zpos (digits2_pos p) + e) ->
  let r := shr_fexp 24 128 (Zpos p) e l in
  snd r = fexp 24 128 (Zpos (digits2_pos p) + e) /\
  0 <= shr_m (fst r) /\
  forall q, shr_m (fst r) = Zpos q ->
            Zpos (digits2_pos q) + snd r = Zpos (digits2_pos p) + e.
Proof.
  intros H. unfold shr_fexp, shr. cbn [Zdigits2].
  set (d := Zpos (digits2_pos p)) in *.
  destruct (fexp 24 128 (d + e) - e) as [| n | n] eqn:En; try lia; cbn [fst snd].
  - rewrite shr_record_of_loc_m. repeat split; try lia.
    intros q [= <-]. fold d. lia.
  - rewrite iter_shr_1_m by (rewrite shr_record_of_loc_m; lia).
    rewrite shr_record_of_loc_m. repeat split; try lia.
    + apply Z.div_pos; [lia | apply Z.pow_pos_nonneg; lia].
    + intros q Hq. rewrite (digits2_div_pow p q (Zpos n)) by (lia || exact Hq).
      fold d. lia.
Qed.

Lemma round_nearest_even_cases (m : Z) (l : location) :
  round_nearest_even m l = m \/ round_nearest_even m l = m + 1.
Proof.
  destruct l as [| []]; simpl; auto. destruct (Z.even m); auto.
Qed.

Lemma fexp_mono (a b : Z) : a <= b -> fexp 24 128 a <= fexp 24 128 b.
Proof. unfold fexp, emin. lia. Qed.

(** A finite number that rounding returns is in canonical form. *)
Lemma binary_round_aux_canonical (sx : bool) (p : BinNums.positive) (e : Z)
      (l : location) (s : bool) (m : BinNums.positive) (e' : Z) :
  e <= fexp 24 128 (Zpos (digits2_pos p) + e) ->
  binary_round_aux 24 128 sx (Zpos p) e l = S754_finite s m e' ->
  s = sx /\ fexp 24 128 (Zpos (digits2_pos m) + e') = e' /\ e' <= 104.
Proof.
  intros Hpre. unfold binary_round_aux.
  destruct (shr_fexp_spec p e l Hpre) as [He1 [Hm1 Hd1]].
  destruct (shr_fexp 24 128 (Zpos p) e l) as [mrs1 e1] eqn:E1.
  cbn [fst snd] in He1, Hm1, Hd1.
  destruct (round_nearest_even_cases (shr_m mrs1) (loc_of_shr_record mrs1))
    as [Hr | Hr]; rewrite Hr; clear Hr.
  - (* the mantissa is kept *)
    destruct (shr_m mrs1) as [| q |] eqn:Eq; try lia.
    + (* zero *)
      unfold shr_fexp, shr. cbn [Zdigits2].
      destruct (fexp 24 128 (0 + e1) - e1) as [| n | n]; cbn [shr_m shr_record_of_loc];
        try discriminate.
      rewrite iter_shr_1_m by (cbn; lia). cbn [shr_m]. rewrite Z.div_0_l.
      * discriminate.
      * apply Z.pow_nonzero; lia.
    + specialize (Hd1 q eq_refl).
      assert (Hpre2 : e1 <= fexp 24 128 (Zpos (digits2_pos q) + e1)).
      { rewrite Hd1, <- He1. lia. }
      destruct (shr_fexp_spec q e1 loc_Exact Hpre2) as [He2 [Hm2 Hd2]].
      destruct (shr_fexp 24 128 (Zpos q) e1 loc_Exact) as [mrs2 e2] eqn:E2.
      cbn [fst snd] in He2, Hm2, Hd2.
      destruct (shr_m mrs2) as [| r |]; try discriminate.
      destruct (e2 <=? 128 - 24) eqn:El; [| discriminate].
      intros [= <- <- <-]. apply Z.leb_le in El.
      specialize (Hd2 r eq_refl). rewrite Hd2, <- He2. repeat split; lia.
  - (* the mantissa is rounded up *)
    destruct (shr_m mrs1 + 1) as [| q2 |] eqn:Eq2; try lia.
    assert (Hpre2 : e1 <= fexp 24 128 (Zpos (digits2_pos q2) + e1)).
    { destruct (shr_m mrs1) as [| q |] eqn:Eq; try lia.
      - (* from zero: the exponent is the least one *)
        assert (q2 = 1%positive) by lia. subst q2. cbn [digits2_pos].
        assert (Hsmall : e1 = -149).
        { unfold shr_fexp, shr in E1. cbn [Zdigits2] in E1.
          pose proof (digits2_lower p) as Hl.
          set (d := Zpos (digits2_pos p)) in *.
          destruct (fexp 24 128 (d + e) - e) as [| n | n] eqn:En.
          - injection E1 as <- <-. rewrite shr_record_of_loc_m in Eq. lia.
          - injection E1 as <- <-.
            rewrite iter_shr_1_m in Eq by (rewrite shr_record_of_loc_m; lia).
            rewrite shr_record_of_loc_m in Eq.
            assert (Hnd : d <= Zpos n).
            { destruct (Z_lt_le_dec (Zpos n) d) as [H | H]; [| exact H].
              assert (2 ^ Zpos n <= 2 ^ (d - 1))
                by (apply Z.pow_le_mono_r; lia).
              assert (0 < 2 ^ Zpos n) by (apply Z.pow_pos_nonneg; lia).
              assert (1 <= Zpos p / 2 ^ Zpos n).
              { apply Z.div_le_lower_bound; lia. }
              lia. }
            unfold fexp, emin in *. lia.
          - injection E1 as <- <-. rewrite shr_record_of_loc_m in Eq. lia. }
        unfold fexp, emin. lia.
      - specialize (Hd1 q eq_refl).
        assert (Zpos (digits2_pos q) <= Zpos (digits2_pos q2))
          by (apply digits2_mono; lia).
        assert (fexp 24 128 (Zpos (digits2_pos q) + e1)
                <= fexp 24 128 (Zpos (digits2_pos q2) + e1))
          by (apply fexp_mono; lia).
        rewrite Hd1, <- He1 in H0. lia. }
    destruct (shr_fexp_spec q2 e1 loc_Exact Hpre2) as [He2 [Hm2 Hd2]].
    destruct (shr_fexp 24 128 (Zpos q2) e1 loc_Exact) as [mrs2 e2] eqn:E2.
    cbn [fst snd] in He2, Hm2, Hd2.
    destruct (shr_m mrs2) as [| r |]; try discriminate.
    destruct (e2 <=? 128 - 24) eqn:El; [| discriminate].
    intros [= <- <- <-]. apply Z.leb_le in El.
    specialize (Hd2 r eq_refl). rewrite Hd2, <- He2. repeat split; lia.
Qed.

Lemma binary_round_canonical (sx : bool) (p : BinNums.positive) (e : Z)
      (s : bool) (m : BinNums.positive) (e' : Z) :
  binary_round 24 128 sx p e = S754_finite s m e' ->
  s = sx /\ fexp 24 128 (Zpos (digits2_pos m) + e') = e' /\ e' <= 104.
Proof.
  unfold binary_round, shl_align.
  destruct (fexp 24 128 (Zpos (digits2_pos p) + e) - e) as [| k | k] eqn:E.
  - apply binary_round_aux_canonical. lia.
  - apply binary_round_aux_canonical. lia.
  - apply binary_round_aux_canonical. rewrite digits2_iter_xO.
    replace (Zpos (digits2_pos p) + Zpos k
             + fexp 24 128 (Zpos (digits2_pos p) + e))
      with (Zpos (digits2_pos p) + e + (Zpos k + fexp 24 128 (Zpos (digits2_pos p) + e) - e)) by lia.
    replace (Zpos k + fexp 24 128 (Zpos (digits2_pos p) + e) - e) with 0 by lia.
    rewrite Z.add_0_r. lia.
Qed.

(** [1.0 * v] is [v], for a finite [v] in canonical form. *)
Lemma f32_mul_one_canonical (s : bool) (m : BinNums.positive) (e : Z) :
  fexp 24 128 (Zpos (digits2_pos m) + e) = e -> e <= 104 ->
  f32_mul f32_one (S754_finite s m e) = S754_finite s m e.
Proof.
  intros Hc He. unfold f32_mul, SFmul, f32_one. cbn [xorb].
  assert (Hm : (8388608 * m)%positive = Pos.iter xO m 23) by reflexivity.
  rewrite Hm. unfold binary_round_aux.
  assert (H1 : shr_fexp 24 128 (Zpos (Pos.iter xO m 23)) (-23 + e) loc_Exact
               = ({| shr_m := Zpos m; shr_r := false; shr_s := false |}, e)).
  { unfold shr_fexp, shr. cbn [Zdigits2]. rewrite digits2_iter_xO.
    replace (fexp 24 128 (Zpos (digits2_pos m) + 23 + (-23 + e)) - (-23 + e))
      with 23
      by (replace (Zpos (digits2_pos m) + 23 + (-23 + e))
            with (Zpos (digits2_pos m) + e) by lia; lia).
    f_equal; try lia; try reflexivity. }
  rewrite H1. cbn [shr_m loc_of_shr_record round_nearest_even].
  assert (H2 : shr_fexp 24 128 (Zpos m) e loc_Exact
               = ({| shr_m := Zpos m; shr_r := false; shr_s := false |}, e)).
  { unfold shr_fexp, shr. cbn [Zdigits2]. rewrite Hc, Z.sub_diag. reflexivity. }
  rewrite H2. cbn [shr_m].
  replace (e <=? 128 - 24) with true by (symmetry; apply Z.leb_le; lia).
  reflexivity.
Qed.

(** [1.0 * std], computed in binary32, is [std] rounded to binary32. *)
Lemma ones_times_rounds (std : float64) : ones_times std = to_float32 std.
Proof.
  unfold ones_times.
  destruct std as [s | s | | s m e]; try reflexivity.
  cbn [to_float32].
  destruct (binary_round 24 128 s m e) as [s' | s' | | s' m' e'] eqn:E;
    try reflexivity.
  apply binary_round_canonical in E. destruct E as [_ [Hc He]].
  now apply f32_mul_one_canonical.
Qed.
End Rounding.

(** ** The framework on small tensors *)

Example chunk2_three_columns :
  chunk2 (mkTensor [2; 3] (map f32_of_Z [1; 2; 3; 4; 5; 6]%Z)) =
  Ok [mkTensor [2; 2] (map f32_of_Z [1; 2; 4; 5]%Z);
      mkTensor [2; 1] (map f32_of_Z [3; 6]%Z)].
Proof. reflexivity. Qed.

Example chunk2_one_column :
  chunk2 (mkTensor [2; 1] (map f32_of_Z [1; 2]%Z)) =
  Ok [mkTensor [2; 1] (map f32_of_Z [1; 2]%Z)].
Proof. reflexivity. Qed.

Example chunk2_no_column :
  chunk2 (mkTensor [2; 0] []) = Ok [mkTensor [2; 0] []; mkTensor [2; 0] []].
Proof. reflexivity. Qed.

Example cat_two :
  cat [mkTensor [2; 1] (map f32_of_Z [1; 2]%Z);
       mkTensor [2; 2] (map f32_of_Z [3; 4; 5; 6]%Z)] =
  Ok (mkTensor [2; 3] (map f32_of_Z [1; 3; 4; 2; 5; 6]%Z)).
Proof. reflexivity. Qed.

Example cat_rank_mismatch :
  cat [mkTensor [2; 1] (map f32_of_Z [1; 2]%Z);
       mkTensor [2] (map f32_of_Z [3; 4]%Z)] = Raise TorchError.
Proof. reflexivity. Qed.

Example Normal_broadcasts_last :
  Normal_init (torch := Sample.torch)
              (mkTensor [2; 2] (map f32_of_Z [1; 2; 3; 4]%Z))
              (mkTensor [2; 1] (map f32_of_Z [5; 6]%Z)) =
  Ok (mkNormal (mkTensor [2; 2] (map f32_of_Z [1; 2; 3; 4]%Z))
               (mkTensor [2; 2] (map f32_of_Z [5; 5; 6; 6]%Z))).
Proof. reflexivity. Qed.

Example Normal_refuses_three_and_two :
  Normal_init (torch := Sample.torch)
              (mkTensor [1; 3] (map f32_of_Z [1; 2; 3]%Z))
              (mkTensor [1; 2] (map f32_of_Z [5; 6]%Z)) =
  Raise TorchError.
Proof. reflexivity. Qed.

(** Under validation a NaN mean, a NaN scale and a zero scale are
    refused. *)
Example Normal_validates :
  Normal_init (torch := Light.strict_torch)
              (mkTensor [1] [S754_nan]) (mkTensor [1] [f32_one]) =
  Raise TorchError /\
  Normal_init (torch := Light.strict_torch)
              (mkTensor [1] [f32_one]) (mkTensor [1] [S754_nan]) =
  Raise TorchError /\
  Normal_init (torch := Light.strict_torch)
              (mkTensor [1] [f32_one]) (mkTensor [1] [f32_zero]) =
  Raise TorchError /\
  Normal_init (torch := Light.strict_torch)
              (mkTensor [1] [f32_zero]) (mkTensor [1] [f32_one]) =
  Ok (mkNormal (mkTensor [1] [f32_zero]) (mkTensor [1] [f32_one])).
Proof. repeat split; reflexivity. Qed.

Example weight_init_three_by_three :
  weight_init (torch := Sample.torch)
              (nn_Conv2d (torch := Sample.torch) 1 2 3 1 1) =
  Ok (Conv2d (mkTensor [2; 1; 3; 3] (repeat f32_zero 18))
             (mkTensor [2] [f32_zero; f32_zero]) 1 1).
Proof. reflexivity. Qed.

(** ** Lists and storage *)

Lemma Forall_firstn_skipn (P : float32 -> Prop) (n k : nat) (d : list float32) :
  Forall P d -> Forall P (firstn n (skipn k d)).
Proof.
  intros H.
  rewrite <- (firstn_skipn k d) in H. apply Forall_app in H as [_ H].
  rewrite <- (firstn_skipn n (skipn k d)) in H. now apply Forall_app in H as [H _].
Qed.

Lemma Forall_blocks (P : float32 -> Prop) (k n : nat) (d : list float32) :
  Forall P d -> Forall (Forall P) (blocks k n d).
Proof.
  intros H. unfold blocks. apply Forall_forall. intros b Hb.
  apply in_map_iff in Hb. destruct Hb as [i [<- _]].
  now apply Forall_firstn_skipn.
Qed.

Lemma Forall_flat_map_list (A : Type) (P : float32 -> Prop)
      (f : A -> list float32) (l : list A) :
  (forall a, In a l -> Forall P (f a)) -> Forall P (flat_map f l).
Proof.
  intros H. apply Forall_forall. intros v Hv.
  apply in_flat_map in Hv. destruct Hv as [a [Ha Hv]].
  specialize (H a Ha). rewrite Forall_forall in H. now apply H.
Qed.

Lemma Forall_concat_repeat (P : float32 -> Prop) (l : list float32) (n : nat) :
  Forall P l -> Forall P (concat (repeat l n)).
Proof.
  intros H. induction n as [| n IH]; simpl.
  - constructor.
  - apply Forall_app. now split.
Qed.

(** Expanding a storage only copies entries. *)
Lemma Forall_expand_data (P : float32 -> Prop) (src : list nat) :
  forall tgt d, Forall P d -> Forall P (expand_data src tgt d).
Proof.
  induction src as [| s src IH]; intros tgt d H; simpl.
  - exact H.
  - destruct tgt as [| t tgt]; [exact H |].
    destruct (s =? t).
    + apply Forall_flat_map_list. intros b Hb. apply IH.
      pose proof (Forall_blocks P s (numel src) d H) as Hall.
      rewrite Forall_forall in Hall. now apply Hall.
    + apply Forall_concat_repeat. now apply IH.
Qed.

Lemma Forall_expand (P : float32 -> Prop) (t : tensor) (tgt : list nat) :
  Forall P (data t) -> Forall P (data (expand t tgt)).
Proof. intros H. unfold expand; simpl. now apply Forall_expand_data. Qed.

Lemma Forall_tmap (P : float32 -> Prop) (f : float32 -> float32) (t : tensor) :
  (forall v, P (f v)) -> Forall P (data (tmap f t)).
Proof.
  intros H. unfold tmap; simpl. apply Forall_forall. intros v Hv.
  apply in_map_iff in Hv. destruct Hv as [u [<- _]]. apply H.
Qed.

Lemma Forall_tmap_from (P Q : float32 -> Prop) (f : float32 -> float32)
      (t : tensor) :
  (forall v, Q v -> P (f v)) -> Forall Q (data t) -> Forall P (data (tmap f t)).
Proof.
  intros H HQ. unfold tmap; simpl. rewrite Forall_forall in *. intros v Hv.
  apply in_map_iff in Hv. destruct Hv as [u [<- Hu]]. auto.
Qed.


Lemma Forall_all (P : float32 -> Prop) (l : list float32) :
  (forall v, P v) -> Forall P l.
Proof. intros H. apply Forall_forall. auto. Qed.

(** ** Building a [Normal] *)

(** What [Normal(l, s)] holds when it is built. *)
Lemma Normal_init_Forall {torch : Torch} (P Q : float32 -> Prop) (l s : tensor)
      (d : Normal) :
  Normal_init l s = Ok d ->
  Forall P (data l) -> Forall Q (data s) ->
  Forall P (data (loc d)) /\ Forall Q (data (scale d)).
Proof.
  unfold Normal_init. intros H Hl Hs.
  destruct (broadcast_shapes (shape l) (shape s)) as [sh |]; [| discriminate].
  cbv zeta in H. destruct (validate_args && _); [discriminate |].
  injection H as <-. simpl. split; now apply Forall_expand.
Qed.

(** A [Normal] built under validation has a mean without NaN or
    infinity and a scale that is positive everywhere. *)
Lemma Normal_init_validated {torch : Torch} (l s : tensor) (d : Normal) :
  Normal_init l s = Ok d -> validate_args = true ->
  Forall (fun v => is_real v = true) (data (loc d)) /\
  Forall (fun v => is_positive v = true) (data (scale d)).
Proof.
  unfold Normal_init. intros H Hv.
  destruct (broadcast_shapes (shape l) (shape s)) as [sh |]; [| discriminate].
  cbv zeta in H. rewrite Hv in H. cbn [andb] in H.
  destruct (accepted _) eqn:Ha; [| discriminate].
  injection H as <-. unfold accepted in Ha.
  apply andb_true_iff in Ha as [Hr Hp].
  unfold real, positive in *. rewrite forallb_forall in Hr, Hp.
  split; apply Forall_forall; auto.
Qed.

Lemma forallb_Forall (p : float32 -> bool) (l : list float32) :
  forallb p l = true <-> Forall (fun v => p v = true) l.
Proof. rewrite forallb_forall, Forall_forall. reflexivity. Qed.

(** Expanding keeps a tensor real, and positive. *)
Lemma real_expand (t : tensor) (sh : list nat) :
  real t = true -> real (expand t sh) = true.
Proof.
  unfold real. rewrite !forallb_Forall. apply Forall_expand.
Qed.

Lemma positive_expand (t : tensor) (sh : list nat) :
  positive t = true -> positive (expand t sh) = true.
Proof.
  unfold positive. rewrite !forallb_Forall. apply Forall_expand.
Qed.

(** When [Normal(l, s)] is built. *)
Lemma Normal_init_Ok {torch : Torch} (l s : tensor) (sh : list nat) :
  broadcast_shapes (shape l) (shape s) = Some sh ->
  validate_args = false \/ (real l = true /\ positive s = true) ->
  Normal_init l s = Ok (mkNormal (expand l sh) (expand s sh)).
Proof.
  intros Hsh Hv. unfold Normal_init. rewrite Hsh. cbv zeta.
  destruct Hv as [-> | [Hr Hp]]; [reflexivity |].
  unfold accepted. cbn [loc scale].
  rewrite real_expand, positive_expand by assumption.
  now rewrite andb_false_r.
Qed.

(** ** What each [forward] computes *)

(** Case analysis on the next call that may raise. *)
Ltac next_call :=
  match goal with
  | |- context [match ?r with Ok _ => _ | Raise _ => _ end] =>
      lazymatch r with
      | context [match _ with _ => _ end] => fail
      | _ => destruct r as [? | ?] eqn:?; simpl
      end
  | |- context [let (_, _) := ?p in _] => destruct p as [? ?]; simpl
  | |- context [if nonzero ?s then _ else _] => destruct (nonzero s); simpl
  end.

Section Forward.
Context {torch : Torch}.

Lemma Gaussian_forward_eq (self : Gaussian.t) (x : input) :
  Gaussian.forward x self =
  (self,
   rbind (as_tensor x) (fun x =>
   rbind (Sequential_forward (Gaussian.net self) x) (fun y =>
   match Gaussian.std self with
   | Some s => if nonzero s then Gaussian.fixed_std y s
               else Gaussian.learned_std y
   | None => Gaussian.learned_std y
   end))).
Proof.
  unfold Gaussian.forward, bind, attr, lift, ret.
  destruct x as [x | xs | xs]; simpl; repeat next_call; try reflexivity;
    destruct (Gaussian.std self); repeat next_call; reflexivity.
Qed.

Lemma ConstantGaussian_forward_eq (self : ConstantGaussian.t) (x : tensor) :
  ConstantGaussian.forward x self =
  (self,
   rbind (size_at x 0) (fun n =>
   let d := ConstantGaussian.output_dim self in
   Normal_init (zeros [n; d])
               (mul_scalar (ones [n; d]) (ConstantGaussian.std self)))).
Proof.
  unfold ConstantGaussian.forward, bind, attr, lift.
  destruct (size_at x 0) as [n | e]; reflexivity.
Qed.

Lemma Decoder_forward_eq (self : Decoder.t) (latent : tensor) :
  Decoder.forward latent self =
  (self,
   match size latent with
   | [num_batches; latent_dim] =>
       rbind (view latent [num_batches; latent_dim; 1; 1]) (fun latent =>
       rbind (conv_loop (Decoder.convts self) (Decoder.leaky_slope self)
                        (seq 0 8) latent) (fun latent =>
       rbind (call_item (Decoder.convts self) 8 latent) (fun y =>
       let recon := torch_tanh y in
       Normal_init recon (mul_scalar (ones_like recon) (Decoder.std self)))))
   | _ => Raise UnpackValueError
   end).
Proof.
  unfold Decoder.forward, bind, attr, lift.
  destruct (size latent) as [| a [| b [| c l]]]; try reflexivity.
  repeat next_call; reflexivity.
Qed.

Lemma Encoder_forward_eq (self : Encoder.t) (x : tensor) :
  Encoder.forward x self =
  (self,
   match size x with
   | [num_batches; _; _; _] =>
       rbind (conv_loop (Encoder.convs self) (Encoder.leaky_slope self)
                        (seq 0 6) x) (fun x =>
       rbind (view_rows x num_batches) (fun x =>
       rbind (run (Gaussian.forward (Tensor x)) (Encoder.gau self))
             (fun dist => Ok (loc dist, dist))))
   | _ => Raise UnpackValueError
   end).
Proof.
  unfold Encoder.forward, bind, attr, lift, call, ret, run.
  destruct (size x) as [| n [| c [| h [| w [| ? ?]]]]]; try reflexivity.
  destruct (conv_loop _ _ _ x) as [z | e]; simpl; [| reflexivity].
  destruct (view_rows z n) as [v | e]; simpl; [| reflexivity].
  rewrite Gaussian_forward_eq. simpl.
  destruct self as [cs sl g]; unfold Encoder.set_gau; simpl.
  destruct (rbind (Sequential_forward (Gaussian.net g) v) _); reflexivity.
Qed.

Lemma TaskNetwork_forward_eq (self : TaskNetwork.t) (x : input) :
  TaskNetwork.forward x self =
  (self,
   rbind (match x with
          | PyTuple _ => Raise TorchError
          | _ => as_tensor x
          end) (fun x =>
   rbind (Sequential_forward (TaskNetwork.net self) x) (fun y =>
   rbind (chunk2 y) (fun pieces =>
   rbind (unpack2 pieces) (fun gb => Ok [fst gb; snd gb]))))).
Proof.
  unfold TaskNetwork.forward, bind, attr, lift, ret.
  destruct x as [x | xs | xs]; simpl; repeat next_call; try reflexivity;
    destruct p; reflexivity.
Qed.

(** The loop, one pass at a time. *)
Lemma conv_loop_cons (ms : ModuleList) (slope : float64) (i : nat)
      (idx : list nat) (x : tensor) :
  conv_loop ms slope (i :: idx) x =
  rbind (call_item ms i x) (fun y =>
  conv_loop ms slope idx (leaky_relu y slope)).
Proof. reflexivity. Qed.

Lemma conv_loop_nil (ms : ModuleList) (slope : float64) (x : tensor) :
  conv_loop ms slope [] x = Ok x.
Proof. reflexivity. Qed.
End Forward.

(** ** Shapes *)

Lemma broadcast_rev_same (a : list nat) : broadcast_rev a a = Some a.
Proof.
  induction a as [| x a IH]; simpl; [reflexivity |].
  now rewrite IH, Nat.eqb_refl.
Qed.

Lemma broadcast_shapes_same (s : list nat) : broadcast_shapes s s = Some s.
Proof.
  unfold broadcast_shapes. rewrite broadcast_rev_same. simpl.
  now rewrite rev_involutive.
Qed.

(** Two shapes that differ in the last dimension only. *)
Lemma broadcast_shapes_last (lead : list nat) (a b : nat) :
  broadcast_shapes (lead ++ [a]) (lead ++ [b]) =
  if a =? b then Some (lead ++ [a])
  else if a =? 1 then Some (lead ++ [b])
  else if b =? 1 then Some (lead ++ [a])
  else None.
Proof.
  unfold broadcast_shapes. rewrite !rev_unit. simpl.
  rewrite broadcast_rev_same.
  destruct (a =? b); [| destruct (a =? 1); [| destruct (b =? 1)]]; simpl;
    try rewrite rev_involutive; reflexivity.
Qed.

Lemma last_dim_snoc (lead : list nat) (n : nat) (d : list float32) :
  last_dim (mkTensor (lead ++ [n]) d) = Some n.
Proof. unfold last_dim; simpl. now rewrite rev_unit. Qed.

(** ** Splitting *)

(** A last dimension of even size [2 * d] is cut in two halves of size
    [d]: the first [d] columns of every row, and the [d] after them. *)
Lemma chunk2_even (y : tensor) (d : nat) :
  last_dim y = Some (2 * d) ->
  let lead := removelast (shape y) in
  let rows := blocks (numel lead) (2 * d) (data y) in
  chunk2 y =
  Ok [ mkTensor (lead ++ [d]) (flat_map (fun r => firstn d r) rows);
       mkTensor (lead ++ [d]) (flat_map (fun r => firstn d (skipn d r)) rows) ].
Proof.
  intros H lead rows. unfold chunk2. rewrite H. fold lead. fold rows.
  destruct d as [| d'].
  - reflexivity.
  - assert (Hs : (2 * S d' + 1) / 2 = S d').
    { replace (2 * S d' + 1) with (1 + S d' * 2) by lia.
      rewrite Nat.div_add by lia. reflexivity. }
    rewrite Hs.
    replace (2 * S d' =? 0) with false by (symmetry; apply Nat.eqb_neq; lia).
    replace (2 * S d' <=? S d') with false by (symmetry; apply Nat.leb_gt; lia).
    replace (2 * S d' - S d') with (S d') by lia.
    reflexivity.
Qed.

(** Whenever the two-way destructuring of the pieces succeeds, the first
    piece has [ceil(n/2)] columns and the second the rest. *)
Lemma chunk2_unpack (y : tensor) (n : nat) (ps : list tensor) (m s : tensor) :
  last_dim y = Some n -> chunk2 y = Ok ps -> unpack2 ps = Ok (m, s) ->
  n <> 1 /\
  shape m = removelast (shape y) ++ [(n + 1) / 2] /\
  shape s = removelast (shape y) ++ [n - (n + 1) / 2].
Proof.
  intros Hn Hc Hu. unfold chunk2 in Hc. rewrite Hn in Hc.
  destruct (n =? 0) eqn:E0.
  - apply Nat.eqb_eq in E0. subst n. injection Hc as <-.
    injection Hu as <- <-. simpl. repeat split; lia.
  - destruct (n <=? (n + 1) / 2) eqn:E1.
    + injection Hc as <-. discriminate.
    + injection Hc as <-. injection Hu as <- <-. simpl.
      apply Nat.leb_gt in E1. repeat split.
      intros ->. simpl in E1. lia.
Qed.

(** Cutting a storage in blocks and gluing them back. *)
Lemma concat_blocks_from (k n : nat) :
  forall d : list float32,
    k * n <= length d -> concat (blocks k n d) = firstn (k * n) d.
Proof.
  unfold blocks. induction k as [| k IH]; intros d H.
  - reflexivity.
  - rewrite seq_S, map_app, concat_app. simpl.
    rewrite IH by lia. rewrite app_nil_r.
    replace (n + k * n) with (k * n + n) by lia.
    rewrite <- (firstn_skipn (k * n) (firstn (k * n + n) d)).
    rewrite firstn_firstn. replace (Init.Nat.min (k * n) (k * n + n)) with (k * n) by lia.
    f_equal. rewrite skipn_firstn_comm.
    replace (k * n + n - k * n) with n by lia. reflexivity.
Qed.

Lemma concat_blocks (k n : nat) (d : list float32) :
  length d = k * n -> concat (blocks k n d) = d.
Proof.
  intros H. rewrite concat_blocks_from by lia. rewrite <- H. apply firstn_all.
Qed.

Lemma In_blocks_length (k n : nat) (d b : list float32) :
  k * n <= length d -> In b (blocks k n d) -> length b = n.
Proof.
  unfold blocks. intros H Hb. apply in_map_iff in Hb.
  destruct Hb as [i [<- Hi]]. apply in_seq in Hi.
  rewrite length_firstn, length_skipn.
  assert (i * n + n <= k * n) by nia. lia.
Qed.

(** Expanding a well-formed storage to its own shape changes nothing. *)
Lemma expand_data_same (s : list nat) :
  forall d, length d = numel s -> expand_data s s d = d.
Proof.
  induction s as [| k s IH]; intros d H; simpl.
  - reflexivity.
  - rewrite Nat.eqb_refl. simpl in H.
    rewrite flat_map_concat_map.
    rewrite (map_ext_in _ (fun b => b)).
    + rewrite map_id. now apply concat_blocks.
    + intros b Hb. apply IH. apply In_blocks_length with k d; [lia | exact Hb].
Qed.

Lemma expand_same (t : tensor) : well_formed t -> expand t (shape t) = t.
Proof.
  unfold well_formed, expand. intros H.
  rewrite Nat.sub_diag. simpl. rewrite expand_data_same by exact H.
  now destruct t.
Qed.

(** [Normal] of two well-formed tensors of one shape keeps both, when
    it is built; it is built unless arguments are validated and not
    accepted. *)
Lemma Normal_init_same_shape {torch : Torch} (l s : tensor) :
  shape l = shape s -> well_formed l -> well_formed s ->
  Normal_init l s =
  if validate_args && negb (accepted (mkNormal l s)) then Raise TorchError
  else Ok (mkNormal l s).
Proof.
  intros Hsh Hl Hs. unfold Normal_init.
  rewrite Hsh, broadcast_shapes_same. cbv zeta.
  rewrite (expand_same s Hs). rewrite <- Hsh. now rewrite (expand_same l Hl).
Qed.




Lemma well_formed_tmap (f : float32 -> float32) (t : tensor) :
  well_formed t -> well_formed (tmap f t).
Proof. unfold well_formed; simpl. now rewrite length_map. Qed.


Lemma map_const_repeat (A : Type) (c : float32) (l : list A) :
  map (fun _ => c) l = repeat c (length l).
Proof. induction l as [| a l IH]; simpl; [reflexivity | now rewrite IH]. Qed.

Lemma Forall_repeat (P : float32 -> Prop) (c : float32) (n : nat) :
  P c -> Forall P (repeat c n).
Proof.
  intros H. apply Forall_forall. intros v Hv.
  apply repeat_spec in Hv. now subst.
Qed.

(** [ones_like(y) * s] holds [s] rounded to binary32 at every position
    of [y]. *)
Lemma fixed_scale_eq (y : tensor) (s : float64) :
  mul_scalar (ones_like y) s =
  mkTensor (shape y) (repeat (to_float32 s) (length (data y))).
Proof.
  unfold mul_scalar, ones_like, tmap. cbn [shape data].
  rewrite map_map, map_const_repeat. fold (ones_times s).
  now rewrite ones_times_rounds.
Qed.

Lemma Forall_fixed_scale (y : tensor) (s : float64) :
  Forall (fun v => v = to_float32 s) (data (mul_scalar (ones_like y) s)).
Proof. rewrite fixed_scale_eq. cbn [data]. now apply Forall_repeat. Qed.

(** ** C4: the scale of a Gaussian head *)

(** The pieces [torch.chunk] cuts hold entries of the tensor it cuts. *)
Lemma chunk2_entries (y : tensor) (ps : list tensor) :
  chunk2 y = Ok ps ->
  Forall (fun p => Forall (fun u => In u (data y)) (data p)) ps.
Proof.
  unfold chunk2. intros H.
  destruct (last_dim y) as [n |]; [| discriminate].
  assert (Hp : forall from len,
             Forall (fun u => In u (data y))
                    (flat_map (fun r => firstn len (skipn from r))
                              (blocks (numel (removelast (shape y))) n (data y)))).
  { intros from len. apply Forall_flat_map_list. intros r Hr.
    apply Forall_firstn_skipn.
    assert (Hall : Forall (fun u => In u (data y)) (data y))
      by (apply Forall_forall; auto).
    apply (Forall_blocks _ (numel (removelast (shape y))) n) in Hall.
    rewrite Forall_forall in Hall. now apply Hall. }
  cbv zeta in H.
  destruct (n =? 0); [| destruct (n <=? (n + 1) / 2)];
    injection H as <-; repeat (apply Forall_cons; [first [apply Hp | apply (Hp 0) | apply (Hp 0 0)] |]);
    apply Forall_nil.
Qed.

(** The scale of the learned branch: at every position,
    [softplus(raw) + 1e-5] in binary32 for an entry [raw] of the output
    of the network. *)
Lemma learned_std_scale {torch : Torch} (y : tensor) (d : Normal) :
  Gaussian.learned_std y = Ok d ->
  Forall (fun v => exists raw,
              In raw (data y) /\
              v = f32_add (softplus_kernel raw) (to_float32 eps))
         (data (scale d)).
Proof.
  unfold Gaussian.learned_std. intros H.
  destruct (chunk2 y) as [ps | e] eqn:Ec; simpl in H; [| discriminate].
  destruct (unpack2 ps) as [[m s] | e] eqn:Eu; simpl in H; [| discriminate].
  apply chunk2_entries in Ec.
  destruct ps as [| m' [| s' [| ? ?]]]; try discriminate.
  injection Eu as -> ->.
  apply Forall_inv_tail, Forall_inv in Ec.
  eapply (Normal_init_Forall (fun _ => True)) in H.
  - exact (proj2 H).
  - now apply Forall_all.
  - unfold add_scalar, softplus, tmap. cbn [data]. rewrite map_map.
    rewrite Forall_forall in *. intros v Hv.
    apply in_map_iff in Hv. destruct Hv as [u [<- Hu]]. eauto.
Qed.

(** The scale of the fixed branch: [1.0 * std] in binary32 at every
    position. *)
Lemma fixed_std_scale_const {torch : Torch} (x : tensor) (s : float64)
      (d : Normal) :
  Gaussian.fixed_std x s = Ok d ->
  Forall (fun v => v = to_float32 s) (data (scale d)).
Proof.
  unfold Gaussian.fixed_std. intros H.
  apply (Normal_init_Forall (fun _ => True) (fun v => v = to_float32 s)) in H.
  - exact (proj2 H).
  - now apply Forall_all.
  - apply Forall_fixed_scale.
Qed.

(** A positive fixed [std] of [1e-50] gives a scale of 0, which is not
    that [std]; and with [std=None] a NaN input gives a NaN scale, which
    is not positive.  (No validation of the arguments here.) *)
Lemma Gaussian_forward_scale_zero_or_nan :
  (exists d,
     SFltb f64_zero Light.tiny = true /\
     run (Gaussian.forward (torch := Sample.torch) (Tensor Sample.x12))
         (Gaussian.__init__ (base := Light.base) 2 2 [256; 256]
                            (Some Light.tiny) Sample.slope) = Ok d /\
     data (scale d) = [f32_zero; f32_zero] /\
     same_number f32_zero Light.tiny = false) /\
  (exists d,
     run (Gaussian.forward (torch := Sample.torch) (Tensor Sample.nan12))
         (Gaussian.__init__ (base := Light.base) 2 1 [256; 256]
                            None Sample.slope) = Ok d /\
     data (scale d) = [S754_nan] /\
     is_positive S754_nan = false).
Proof.
  split; eexists; repeat split; reflexivity.
Qed.

(** C4.  Whenever [Gaussian.forward] returns a distribution: if the head
    was built with [std=None], its scale is at every position
    [softplus(raw) + 1e-5], computed in binary32, for an entry [raw] of
    the output of the network, and is strictly positive there unless
    that softplus is negative or NaN (so everywhere, when the framework
    validates the arguments); if it was built with a fixed positive
    [std], its scale is at every position [1.0 * std] computed in
    binary32, which is the [std] rounded to binary32. *)
Theorem Gaussian_forward_scale_valid
        (torch : Torch) (self : Gaussian.t) (x : input) (d : Normal) :
  run (Gaussian.forward x) self = Ok d ->
  (Gaussian.std self = None ->
   (exists y,
      rbind (as_tensor x) (Sequential_forward (Gaussian.net self)) = Ok y /\
      Forall (fun v => exists raw,
                  In raw (data y) /\
                  v = f32_add (softplus_kernel raw) (to_float32 eps) /\
                  (SFleb f32_zero (softplus_kernel raw) = true ->
                   is_positive v = true))
             (data (scale d))) /\
   (validate_args = true ->
    Forall (fun v => is_positive v = true) (data (scale d)))) /\
  (forall s, Gaussian.std self = Some s -> SFltb f64_zero s = true ->
             Forall (fun v => v = to_float32 s) (data (scale d))).
Proof.
  unfold run. rewrite Gaussian_forward_eq. simpl. intros H.
  destruct (as_tensor x) as [x0 | e]; simpl in H; [| discriminate].
  destruct (Sequential_forward (Gaussian.net self) x0) as [y | e] eqn:Ey;
    simpl in H; [| discriminate].
  split.
  - intros Hstd. rewrite Hstd in H. split.
    + exists y. split; [exact Ey |].
      apply learned_std_scale in H.
      rewrite Forall_forall in *. intros v Hv.
      destruct (H v Hv) as [raw [Hin ->]]. exists raw.
      repeat split; [exact Hin |]. apply f32_add_eps_positive.
    + intros Hv. unfold Gaussian.learned_std in H. steps H.
      exact (proj2 (Normal_init_validated _ _ _ H Hv)).
  - intros s Hstd Hpos. rewrite Hstd, (positive_nonzero s Hpos) in H.
    now apply fixed_std_scale_const with y.
Qed.

Lemma Gaussian_forward_scale_valid_witness :
  (exists d, run (@Gaussian.forward Sample.torch (Tensor Sample.x12))
                 Sample.learned = Ok d /\
             Forall (fun v => is_positive v = true) (data (scale d))) /\
  (exists d, run (@Gaussian.forward Sample.torch (Tensor Sample.x12))
                 Sample.fixed = Ok d /\
             Forall (fun v => v = f32_one) (data (scale d))).
Proof.
  split.
  - eexists. split; [reflexivity |].
    destruct (proj1 (Gaussian_forward_scale_valid Sample.torch Sample.learned
                       (Tensor Sample.x12) _ eq_refl) eq_refl)
      as [[y [Hy Hall]] _].
    vm_compute in Hy. injection Hy as <-.
    rewrite Forall_forall in *. intros v Hv.
    destruct (Hall v Hv) as [raw [Hin [_ Hpos]]]. apply Hpos.
    destruct Hin as [<- | [<- | []]]; reflexivity.
  - eexists. split; [reflexivity |].
    exact (proj2 (Gaussian_forward_scale_valid Sample.torch Sample.fixed
                    (Tensor Sample.x12) _ eq_refl) f64_one eq_refl eq_refl).
Defined.

(** ** C5: the decoder *)




(** ** C6 and C9: the constant head *)



Lemma positive_repeat (s : list nat) (c : float32) (n : nat) :
  positive (mkTensor s (repeat c n)) = (n =? 0) || is_positive c.
Proof.
  unfold positive. cbn [data]. destruct n as [| n]; [reflexivity |].
  cbn [Nat.eqb orb]. destruct (is_positive c) eqn:Ec.
  - apply forallb_Forall. now apply Forall_repeat.
  - simpl. now rewrite Ec.
Qed.




(** C9.  Two inputs with the same batch size get the same distribution
    from [ConstantGaussian.forward] (and leave the same object): the
    values of the input play no part. *)
Theorem ConstantGaussian_forward_noninterference
        (torch : Torch) (self : ConstantGaussian.t) (x y : tensor) :
  size_at x 0 = size_at y 0 ->
  ConstantGaussian.forward x self = ConstantGaussian.forward y self.
Proof.
  intros H. rewrite !ConstantGaussian_forward_eq. now rewrite H.
Qed.

Lemma ConstantGaussian_forward_noninterference_witness :
  ConstantGaussian.forward (torch := Sample.torch) Sample.x12 Sample.constant =
  ConstantGaussian.forward (torch := Sample.torch) Sample.y12 Sample.constant.
Proof.
  exact (ConstantGaussian_forward_noninterference
           Sample.torch Sample.constant Sample.x12 Sample.y12 eq_refl).
Defined.

(** ** C10: a list is its concatenation *)

(** C10.  When the concatenation [t] of the list [xs] along the last
    dimension is well-formed, [Gaussian.forward] and
    [TaskNetwork.forward] do on the list what they do on [t]. *)
Theorem forward_list_is_forward_cat
        (torch : Torch) (g : Gaussian.t) (tn : TaskNetwork.t)
        (xs : list tensor) (t : tensor) :
  cat xs = Ok t ->
  Gaussian.forward (PyList xs) g = Gaussian.forward (Tensor t) g /\
  TaskNetwork.forward (PyList xs) tn = TaskNetwork.forward (Tensor t) tn.
Proof.
  intros H. rewrite !Gaussian_forward_eq, !TaskNetwork_forward_eq. simpl.
  now rewrite H.
Qed.

Lemma forward_list_is_forward_cat_witness :
  Gaussian.forward (torch := Sample.torch)
                   (PyList [Sample.x11; Sample.x11]) Sample.learned =
  Gaussian.forward (torch := Sample.torch)
                   (Tensor (mkTensor [1; 2] [f32_of_Z 24; f32_of_Z 24]))
                   Sample.learned /\
  TaskNetwork.forward (torch := Sample.torch)
                      (PyList [Sample.x11; Sample.x11]) Sample.task =
  TaskNetwork.forward (torch := Sample.torch)
                      (Tensor (mkTensor [1; 2] [f32_of_Z 24; f32_of_Z 24]))
                      Sample.task.
Proof.
  exact (forward_list_is_forward_cat Sample.torch Sample.learned Sample.task
           [Sample.x11; Sample.x11]
           (mkTensor [1; 2] [f32_of_Z 24; f32_of_Z 24]) eq_refl).
Defined.

(** ** C7: a forward pass assigns nothing *)

(** C7.  The [forward] of [Gaussian], [ConstantGaussian], [Encoder],
    [Decoder] and [TaskNetwork] leaves the module object, with every
    weight and bias it holds, as it found it, whether it returns or
    raises. *)
Theorem forward_leaves_modules_unchanged (torch : Torch) :
  (forall x, leaves_unchanged (Gaussian.forward x)) /\
  (forall x, leaves_unchanged (ConstantGaussian.forward x)) /\
  (forall x, leaves_unchanged (Encoder.forward x)) /\
  (forall x, leaves_unchanged (Decoder.forward x)) /\
  (forall x, leaves_unchanged (TaskNetwork.forward x)).
Proof.
  unfold leaves_unchanged, after.
  repeat split; intros x self.
  - now rewrite Gaussian_forward_eq.
  - now rewrite ConstantGaussian_forward_eq.
  - now rewrite Encoder_forward_eq.
  - now rewrite Decoder_forward_eq.
  - now rewrite TaskNetwork_forward_eq.
Qed.

(** The one method that assigns parameters after construction. *)
Lemma copy_conv_weights_from_assigns
      (base : Base) (self source : TaskNetwork.t) :
  TaskNetwork.net (after (TaskNetwork.copy_conv_weights_from source) self) =
  tie_weights (TaskNetwork.net source) (TaskNetwork.net self).
Proof. reflexivity. Qed.

(** ** C1: the encoder *)

Lemma call_item_Ok {torch : Torch} (ms : ModuleList) (i : nat) (x y : tensor) :
  call_item ms i x = Ok y <->
  exists m, nth_error ms i = Some m /\ layer_forward m x = Ok y.
Proof.
  unfold call_item. destruct (nth_error ms i) as [m |]; split.
  - eauto.
  - now intros [m' [[= <-] H]].
  - discriminate.
  - now intros [m' [[=] _]].
Qed.

(** One pass of the loop that has returned: layer [i] on [x], then
    [leaky_relu]. *)
Ltac pass H y Ey :=
  rewrite conv_loop_cons in H; apply rbind_Ok in H; destruct H as [y [Ey H]].

Lemma view_rows_Ok (t flat : tensor) (n : nat) :
  view_rows t n = Ok flat ->
  n <> 0 /\ flat = mkTensor [n; numel (shape t) / n] (data t).
Proof.
  unfold view_rows. destruct (n =? 0) eqn:E; [discriminate |].
  apply Nat.eqb_neq in E.
  destruct (numel (shape t) mod n =? 0); [| discriminate].
  now intros [= <-].
Qed.

(** C1.  Whenever [Encoder.forward] returns, it returns a pair of a
    tensor and a [Normal].  The input is a batch of rank 4; the six
    layers [convs[0]], ..., [convs[5]] have been called in turn, the
    first on the input and each other on the [leaky_relu] of the output
    of the one before; the [leaky_relu] of the last output, with the
    same entries in [num_batches] rows, is the flattened feature
    tensor; the [Normal] is what the Gaussian head [gau] returns on it,
    and the tensor is the [loc] of that [Normal]. *)
Theorem Encoder_forward_returns_mean_and_dist
        (torch : Torch) (self : Encoder.t) (x : tensor)
        (mean : tensor) (dist : Normal) :
  run (Encoder.forward x) self = Ok (mean, dist) ->
  mean = loc dist /\
  exists (num_batches c h w : nat) (m0 m1 m2 m3 m4 m5 : layer)
         (y0 y1 y2 y3 y4 y5 : tensor),
    let act y := leaky_relu y (Encoder.leaky_slope self) in
    size x = [num_batches; c; h; w] /\
    firstn 6 (Encoder.convs self) = [m0; m1; m2; m3; m4; m5] /\
    layer_forward m0 x = Ok y0 /\
    layer_forward m1 (act y0) = Ok y1 /\
    layer_forward m2 (act y1) = Ok y2 /\
    layer_forward m3 (act y2) = Ok y3 /\
    layer_forward m4 (act y3) = Ok y4 /\
    layer_forward m5 (act y4) = Ok y5 /\
    num_batches <> 0 /\
    let flat :=
      mkTensor [num_batches; numel (shape y5) / num_batches]
               (map (leaky_relu_kernel (Encoder.leaky_slope self)) (data y5)) in
    run (Gaussian.forward (Tensor flat)) (Encoder.gau self) = Ok dist.
Proof.
  unfold run at 1. rewrite Encoder_forward_eq. cbn [snd]. intros H.
  destruct (size x) as [| n [| c [| h [| w [| ? ?]]]]] eqn:Es;
    try discriminate.
  apply rbind_Ok in H. destruct H as [feat [Hloop H]].
  apply rbind_Ok in H. destruct H as [flat [Hview H]].
  apply rbind_Ok in H. destruct H as [dist' [Hgau H]].
  injection H as <- <-.
  split; [reflexivity |].
  change (seq 0 6) with [0; 1; 2; 3; 4; 5] in Hloop.
  pass Hloop y0 E0. pass Hloop y1 E1. pass Hloop y2 E2.
  pass Hloop y3 E3. pass Hloop y4 E4. pass Hloop y5 E5.
  rewrite conv_loop_nil in Hloop. injection Hloop as <-.
  apply call_item_Ok in E0, E1, E2, E3, E4, E5.
  destruct E0 as [m0 [N0 E0]]. destruct E1 as [m1 [N1 E1]].
  destruct E2 as [m2 [N2 E2]]. destruct E3 as [m3 [N3 E3]].
  destruct E4 as [m4 [N4 E4]]. destruct E5 as [m5 [N5 E5]].
  apply view_rows_Ok in Hview. destruct Hview as [Hn ->].
  exists n, c, h, w, m0, m1, m2, m3, m4, m5, y0, y1, y2, y3, y4, y5.
  cbv zeta. repeat split; try assumption.
  destruct (Encoder.convs self) as [| a0 [| a1 [| a2 [| a3 [| a4 [| a5 l]]]]]];
    try discriminate.
  cbn in N0, N1, N2, N3, N4, N5. cbn [firstn]. congruence.
Qed.

Lemma Encoder_forward_returns_mean_and_dist_witness :
  exists mean dist,
    run (@Encoder.forward Sample.torch Sample.image) Sample.encoder
    = Ok (mean, dist) /\
    mean = loc dist.
Proof.
  eexists. eexists. split; [reflexivity |].
  exact (proj1 (Encoder_forward_returns_mean_and_dist
                  Sample.torch Sample.encoder Sample.image _ _ eq_refl)).
Defined.

(** ** C2: the task network *)

(** C2.  When the linear network returns [y] with a last dimension of
    size [2 * output_dim], [TaskNetwork.forward] returns the two-element
    list [[gamma, bias]] of the two pieces [torch.chunk] cuts [y] in:
    [gamma] holds the first [output_dim] columns of every row of [y] and
    [bias] the next [output_dim], so both have a last dimension of size
    [output_dim]. *)
Theorem TaskNetwork_forward_gamma_bias
        (torch : Torch) (self : TaskNetwork.t) (x y : tensor)
        (output_dim : nat) :
  Sequential_forward (TaskNetwork.net self) x = Ok y ->
  last_dim y = Some (2 * output_dim) ->
  exists gamma bias : tensor,
    run (TaskNetwork.forward (Tensor x)) self = Ok [gamma; bias] /\
    chunk2 y = Ok [gamma; bias] /\
    last_dim gamma = Some output_dim /\
    last_dim bias = Some output_dim /\
    let lead := removelast (shape y) in
    let rows := blocks (numel lead) (2 * output_dim) (data y) in
    shape gamma = lead ++ [output_dim] /\
    shape bias = lead ++ [output_dim] /\
    data gamma = flat_map (fun r => firstn output_dim r) rows /\
    data bias = flat_map (fun r => firstn output_dim (skipn output_dim r)) rows.
Proof.
  intros Hy Hlast. pose proof (chunk2_even y output_dim Hlast) as Hc.
  cbv zeta in Hc. eexists. eexists.
  split; [| split; [exact Hc |]].
  - unfold run. rewrite TaskNetwork_forward_eq. cbn [snd as_tensor rbind].
    rewrite Hy. cbn [rbind]. rewrite Hc. reflexivity.
  - cbv zeta. rewrite !last_dim_snoc. repeat split; reflexivity.
Qed.

Lemma TaskNetwork_forward_gamma_bias_witness :
  exists gamma bias : tensor,
    run (@TaskNetwork.forward Sample.torch (Tensor Sample.x12)) Sample.task
    = Ok [gamma; bias] /\
    last_dim gamma = Some 1 /\ last_dim bias = Some 1.
Proof.
  destruct (TaskNetwork_forward_gamma_bias
              Sample.torch Sample.task Sample.x12 _ 1 eq_refl eq_refl)
    as [gamma [bias [Hrun [_ [Hg [Hb _]]]]]].
  exists gamma, bias. auto.
Defined.

(** ** C3: where a failure can come from *)

Lemma fails_only_in_torch_Ok {A} (a : A) : fails_only_in_torch (Ok a).
Proof. intros e H. discriminate. Qed.

Lemma fails_only_in_torch_Raise {A} : fails_only_in_torch (@Raise A TorchError).
Proof. intros e H. now injection H as <-. Qed.

Lemma fails_only_in_torch_from_torch {A} (o : option A) :
  fails_only_in_torch (from_torch o).
Proof.
  destruct o; [apply fails_only_in_torch_Ok | apply fails_only_in_torch_Raise].
Qed.

Lemma fails_only_in_torch_rbind {A B} (r : result A) (k : A -> result B) :
  fails_only_in_torch r -> (forall a, fails_only_in_torch (k a)) ->
  fails_only_in_torch (rbind r k).
Proof.
  intros Hr Hk. destruct r as [a | e]; simpl.
  - apply Hk.
  - intros e' H. injection H as <-. now apply Hr.
Qed.

Lemma fails_only_in_torch_rmap_list {A B} (f : A -> result B) (l : list A) :
  Forall (fun a => fails_only_in_torch (f a)) l ->
  fails_only_in_torch (rmap_list f l).
Proof.
  induction 1 as [| a l Ha _ IH]; simpl.
  - apply fails_only_in_torch_Ok.
  - apply fails_only_in_torch_rbind; [exact Ha | intros b].
    apply fails_only_in_torch_rbind; [exact IH | intros bs].
    apply fails_only_in_torch_Ok.
Qed.

Lemma fails_only_in_torch_never_asserts {A} (r : result A) :
  fails_only_in_torch r -> never_asserts r.
Proof. intros H E. specialize (H _ E). discriminate. Qed.

Lemma never_asserts_rbind {A B} (r : result A) (k : A -> result B) :
  never_asserts r -> (forall a, never_asserts (k a)) ->
  never_asserts (rbind r k).
Proof.
  unfold never_asserts. intros Hr Hk. destruct r as [a | e]; simpl.
  - apply Hk.
  - intros H. apply Hr. injection H as ->. reflexivity.
Qed.

Lemma never_asserts_Ok {A} (a : A) : never_asserts (Ok a).
Proof. discriminate. Qed.

Create HintDb torch_failure.
#[local] Hint Resolve fails_only_in_torch_Ok fails_only_in_torch_Raise
  fails_only_in_torch_from_torch fails_only_in_torch_never_asserts
  never_asserts_Ok : torch_failure.

Section Failures.
Context {torch : Torch}.

Lemma get_center_fails_only_in_torch (w : tensor) (mid : nat) :
  fails_only_in_torch (get_center w mid).
Proof.
  unfold get_center.
  destruct (shape w) as [| d0 [| d1 [| k2 [| k3 [| ? ?]]]]];
    auto with torch_failure.
  destruct ((mid <? k2) && (mid <? k3)); auto with torch_failure.
Qed.

(** On a square kernel the assertion of [weight_init] holds. *)
Lemma conv_weight_init_square (w b : tensor) (d0 d1 k : nat) :
  shape w = [d0; d1; k; k] -> fails_only_in_torch (conv_weight_init w b).
Proof.
  intros Hw. unfold conv_weight_init, size_at. rewrite Hw. simpl.
  rewrite Nat.eqb_refl.
  apply fails_only_in_torch_rbind;
    [apply get_center_fails_only_in_torch | intros c].
  apply fails_only_in_torch_rbind; auto with torch_failure.
Qed.

Lemma weight_init_square (m : layer) :
  square_kernel m -> fails_only_in_torch (weight_init m).
Proof.
  destruct m as [w b | w b s p | w b s p op | a]; simpl.
  - intros _. apply fails_only_in_torch_rbind; auto with torch_failure.
  - intros [d0 [d1 [k Hw]]].
    apply fails_only_in_torch_rbind; auto with torch_failure.
    now apply conv_weight_init_square with d0 d1 k.
  - intros [d0 [d1 [k Hw]]].
    apply fails_only_in_torch_rbind; auto with torch_failure.
    now apply conv_weight_init_square with d0 d1 k.
  - auto with torch_failure.
Qed.

Lemma no_conv_square (m : layer) : no_conv m -> square_kernel m.
Proof. destruct m; simpl; tauto. Qed.

Lemma apply_weight_init_square (ms : list layer) :
  Forall square_kernel ms -> fails_only_in_torch (apply_weight_init ms).
Proof.
  intros H. apply fails_only_in_torch_rmap_list.
  eapply Forall_impl; [| exact H]. apply weight_init_square.
Qed.

Lemma Decoder_init_fails_only_in_torch
      (input_dim output_dim : nat) (std slope : float64) (bot_dim : nat) :
  fails_only_in_torch
    (Decoder.__init__ input_dim output_dim std slope bot_dim).
Proof.
  unfold Decoder.__init__.
  apply fails_only_in_torch_rbind; [| auto with torch_failure].
  apply apply_weight_init_square.
  repeat (apply Forall_cons; [simpl; do 3 eexists; reflexivity |]).
  apply Forall_nil.
Qed.

Lemma Encoder_init_fails_only_in_torch
      (base : Base) (input_dim latent_dim : nat) (hidden_units : list nat)
      (slope : float64) :
  (forall i o h a ini, Forall no_conv (create_linear_network i o h a ini)) ->
  fails_only_in_torch
    (Encoder.__init__ input_dim latent_dim hidden_units slope).
Proof.
  intros Hlin. unfold Encoder.__init__.
  apply fails_only_in_torch_rbind; [| intros convs].
  - apply apply_weight_init_square.
    repeat (apply Forall_cons; [simpl; do 3 eexists; reflexivity |]).
    apply Forall_nil.
  - apply fails_only_in_torch_rbind; [| auto with torch_failure].
    apply apply_weight_init_square. unfold Gaussian.__init__.
    cbn [Gaussian.net]. eapply Forall_impl; [| apply Hlin].
    apply no_conv_square.
Qed.

(** *** The calls of a forward pass *)

Lemma cat_fails_only_in_torch (xs : list tensor) : fails_only_in_torch (cat xs).
Proof.
  unfold cat. destruct xs as [| x xs]; [auto with torch_failure |].
  destruct (filter _ (x :: xs)); [auto with torch_failure |].
  destruct (forallb _ _); auto with torch_failure.
Qed.

Lemma chunk2_fails_only_in_torch (t : tensor) : fails_only_in_torch (chunk2 t).
Proof.
  unfold chunk2. destruct (last_dim t) as [n |]; [| auto with torch_failure].
  destruct (n =? 0); [auto with torch_failure |].
  destruct (n <=? (n + 1) / 2); auto with torch_failure.
Qed.

Lemma unpack2_never_asserts {A} (l : list A) : never_asserts (unpack2 l).
Proof. destruct l as [| a [| b [| c l]]]; discriminate. Qed.

Lemma Normal_init_fails_only_in_torch (l s : tensor) :
  fails_only_in_torch (Normal_init l s).
Proof.
  unfold Normal_init. destruct (broadcast_shapes _ _); auto with torch_failure.
  cbv zeta. destruct (validate_args && _); auto with torch_failure.
Qed.

Lemma view_fails_only_in_torch (t : tensor) (s : list nat) :
  fails_only_in_torch (view t s).
Proof. unfold view. destruct (_ =? _); auto with torch_failure. Qed.

Lemma view_rows_fails_only_in_torch (t : tensor) (n : nat) :
  fails_only_in_torch (view_rows t n).
Proof.
  unfold view_rows. destruct (n =? 0); [auto with torch_failure |].
  destruct (_ =? 0); auto with torch_failure.
Qed.

Lemma size_at_fails_only_in_torch (t : tensor) (i : nat) :
  fails_only_in_torch (size_at t i).
Proof. unfold size_at. destruct (nth_error _ _); auto with torch_failure. Qed.

Lemma layer_forward_fails_only_in_torch (m : layer) (x : tensor) :
  fails_only_in_torch (layer_forward m x).
Proof.
  destruct m as [w b | w b s p | w b s p op | [a |]]; simpl;
    auto with torch_failure.
Qed.

Lemma Sequential_forward_fails_only_in_torch (net : Sequential) :
  forall x, fails_only_in_torch (Sequential_forward net x).
Proof.
  induction net as [| m net IH]; intros x; simpl; [auto with torch_failure |].
  apply fails_only_in_torch_rbind;
    [apply layer_forward_fails_only_in_torch | exact IH].
Qed.

Lemma call_item_fails_only_in_torch (ms : ModuleList) (i : nat) (x : tensor) :
  fails_only_in_torch (call_item ms i x).
Proof.
  unfold call_item. destruct (nth_error ms i);
    auto using layer_forward_fails_only_in_torch with torch_failure.
Qed.

Lemma conv_loop_fails_only_in_torch (ms : ModuleList) (slope : float64)
      (idx : list nat) :
  forall x, fails_only_in_torch (conv_loop ms slope idx x).
Proof.
  induction idx as [| i idx IH]; intros x; simpl; [auto with torch_failure |].
  apply fails_only_in_torch_rbind;
    [apply call_item_fails_only_in_torch | intros y; apply IH].
Qed.
End Failures.

#[local] Hint Resolve cat_fails_only_in_torch chunk2_fails_only_in_torch
  unpack2_never_asserts Normal_init_fails_only_in_torch
  view_fails_only_in_torch view_rows_fails_only_in_torch
  size_at_fails_only_in_torch Sequential_forward_fails_only_in_torch
  call_item_fails_only_in_torch conv_loop_fails_only_in_torch : torch_failure.

(** Proves that a sequence of calls never fails an assertion. *)
Ltac no_assertion :=
  repeat first
    [ apply never_asserts_rbind; [| intro]
    | solve [auto with torch_failure]
    | progress cbv zeta ].

(** The assertion is live: outside the constructors, a kernel that is
    not square fails it. *)
Lemma weight_init_wide_kernel_asserts :
  weight_init (torch := Sample.torch) Sample.wide_conv = Raise AssertionError.
Proof. reflexivity. Qed.

(** A forward pass can fail outside the framework: a latent of rank 1
    makes the destructuring of [latent.size()] in [Decoder.forward]
    raise Python's ValueError. *)
Lemma Decoder_forward_failure_outside_torch :
  run (Decoder.forward (torch := Sample.torch) Sample.vec3) Sample.decoder
  = Raise UnpackValueError /\
  ~ (forall (torch : Torch) (x : tensor) (self : Decoder.t),
        fails_only_in_torch (run (Decoder.forward x) self)).
Proof.
  split; [reflexivity |].
  intros H. specialize (H Sample.torch Sample.vec3 Sample.decoder _ eq_refl).
  discriminate.
Qed.

(** C3, amended.  Provided the linear network of [base.py] holds no
    convolution, constructing a [Decoder] or an [Encoder] can only fail
    inside the framework: [weight_init] finds a square kernel in every
    convolution they build, so its assertion holds.  No forward pass
    fails an assertion either; what it can raise besides the framework's
    exceptions is the ValueError of a destructuring assignment. *)
Theorem construction_and_forward_never_assert (torch : Torch) (base : Base) :
  (forall i o h a ini, Forall no_conv (create_linear_network i o h a ini)) ->
  (forall input_dim output_dim std slope bot_dim,
      fails_only_in_torch
        (Decoder.__init__ input_dim output_dim std slope bot_dim)) /\
  (forall input_dim latent_dim hidden_units slope,
      fails_only_in_torch
        (Encoder.__init__ input_dim latent_dim hidden_units slope)) /\
  (forall x self, never_asserts (run (Gaussian.forward x) self)) /\
  (forall x self, never_asserts (run (ConstantGaussian.forward x) self)) /\
  (forall x self, never_asserts (run (Encoder.forward x) self)) /\
  (forall x self, never_asserts (run (Decoder.forward x) self)) /\
  (forall x self, never_asserts (run (TaskNetwork.forward x) self)).
Proof.
  intros Hlin.
  assert (HG : forall x self, never_asserts (run (Gaussian.forward x) self)).
  { intros x self. unfold run. rewrite Gaussian_forward_eq. cbn [snd].
    assert (never_asserts (as_tensor x))
      by (destruct x; simpl; auto with torch_failure).
    unfold Gaussian.fixed_std, Gaussian.learned_std.
    no_assertion.
    destruct (Gaussian.std self) as [s |]; [destruct (nonzero s) |];
      no_assertion. }
  split; [intros; apply Decoder_init_fails_only_in_torch |].
  split; [intros; now apply Encoder_init_fails_only_in_torch |].
  split; [exact HG |].
  repeat split; intros x self; unfold run.
  - rewrite ConstantGaussian_forward_eq. cbn [snd]. no_assertion.
  - rewrite Encoder_forward_eq. cbn [snd].
    destruct (size x) as [| n [| c [| h [| w [| ? ?]]]]]; try discriminate.
    no_assertion.
  - rewrite Decoder_forward_eq. cbn [snd].
    destruct (size x) as [| a [| b [| c l]]]; try discriminate.
    no_assertion.
  - rewrite TaskNetwork_forward_eq. cbn [snd].
    assert (never_asserts (match x with
                           | PyTuple _ => Raise TorchError
                           | _ => as_tensor x
                           end))
      by (destruct x; simpl; auto with torch_failure).
    no_assertion.
Qed.

Lemma construction_and_forward_never_assert_witness :
  fails_only_in_torch
    (Encoder.__init__ (torch := Sample.torch) (base := Sample.base)
                      3 256 [256; 256] Sample.slope) /\
  never_asserts
    (run (Decoder.forward (torch := Sample.torch) Sample.vec3) Sample.decoder).
Proof.
  assert (Hlin : forall i o h a ini,
             Forall no_conv
                    (create_linear_network (Base := Sample.base) i o h a ini)).
  { intros i o h a ini. apply Forall_cons; [exact I | apply Forall_nil]. }
  pose proof (construction_and_forward_never_assert
                Sample.torch Sample.base Hlin) as H.
  split.
  - apply (proj1 (proj2 H)).
  - apply (proj1 (proj2 (proj2 (proj2 (proj2 (proj2 H)))))).
Defined.

(** ** C8: a head built with [std=0] *)

Lemma last_dim_expand (t : tensor) (lead : list nat) (n : nat) :
  last_dim (expand t (lead ++ [n])) = Some n.
Proof. unfold expand. apply last_dim_snoc. Qed.

(** What the learned-scale branch returns has [ceil(n/2)] columns when
    its argument has [n], and [n] is not 1. *)
Lemma learned_std_last_dim {torch : Torch} (y : tensor) (n : nat) (d : Normal) :
  last_dim y = Some n -> Gaussian.learned_std y = Ok d ->
  n <> 1 /\
  last_dim (loc d) = Some ((n + 1) / 2) /\
  last_dim (scale d) = Some ((n + 1) / 2).
Proof.
  intros Hn H. unfold Gaussian.learned_std in H. steps H.
  destruct r0 as [m s]. cbn [fst snd] in H.
  destruct (chunk2_unpack y n r m s Hn E E0) as [Hn1 [Hm Hs]].
  split; [exact Hn1 |].
  unfold Normal_init in H. cbn [shape add_scalar softplus tmap] in H.
  rewrite Hm, Hs, broadcast_shapes_last in H.
  assert (Hinv : forall sh l s0,
             (let d0 := mkNormal (expand l sh) (expand s0 sh) in
              if validate_args && negb (accepted d0)
              then Raise TorchError else Ok d0) = Ok d ->
             d = mkNormal (expand l sh) (expand s0 sh)).
  { intros sh l s0 H0. cbv zeta in H0.
    destruct (validate_args && _); [discriminate | now injection H0]. }
  destruct ((n + 1) / 2 =? n - (n + 1) / 2) eqn:Eab.
  - apply Hinv in H. subst d. cbn [loc scale]. now rewrite !last_dim_expand.
  - destruct ((n + 1) / 2 =? 1) eqn:Ea.
    + exfalso. apply Nat.eqb_neq in Eab. apply Nat.eqb_eq in Ea.
      assert (n = 2).
      { pose proof (Nat.div_mod_eq (n + 1) 2) as Hd.
        pose proof (Nat.mod_upper_bound (n + 1) 2). lia. }
      subst n. simpl in Eab. lia.
    + destruct (n - (n + 1) / 2 =? 1); [| discriminate].
      apply Hinv in H. subst d. cbn [loc scale]. now rewrite !last_dim_expand.
Qed.

Lemma half_up_even (n : nat) : Nat.even n = true -> (n + 1) / 2 = n / 2.
Proof.
  intros H. apply Nat.even_spec in H. destruct H as [k ->].
  replace (2 * k + 1) with (1 + k * 2) by lia.
  rewrite Nat.div_add by lia. rewrite (Nat.mul_comm 2 k), Nat.div_mul by lia.
  reflexivity.
Qed.

Lemma half_up_less (n : nat) : n <> 0 -> n <> 1 -> (n + 1) / 2 <> n.
Proof.
  intros H0 H1 E. pose proof (Nat.div_mod_eq (n + 1) 2) as Hd.
  pose proof (Nat.mod_upper_bound (n + 1) 2). lia.
Qed.

(** The edge case as the claim states it, at [output_dim = 3]: the head
    returns a [Normal] whose last dimension has size 2, not [3 // 2]. *)
Lemma Gaussian_zero_std_three_outputs :
  exists y d,
    Sequential_forward (torch := Sample.torch)
                       (Gaussian.net (Sample.zero_std 3)) Sample.x12 = Ok y /\
    last_dim y = Some 3 /\
    run (Gaussian.forward (torch := Sample.torch) (Tensor Sample.x12))
        (Sample.zero_std 3) = Ok d /\
    last_dim (loc d) = Some 2 /\
    last_dim (loc d) <> Some (3 / 2).
Proof.
  eexists. eexists. split; [reflexivity |]. split; [reflexivity |].
  split; [reflexivity |]. split; [reflexivity | discriminate].
Qed.

(** C8, amended.  A head built with [std=0] has a network with
    [output_dim] outputs, as for a fixed scale, and its [forward] takes
    the learned-scale branch on the output [y] of that network.  When [y]
    has [output_dim] columns, a [Normal] that is returned has
    [ceil(output_dim / 2)] columns, which is [output_dim // 2] for an
    even [output_dim] and is not [output_dim] unless that is 0; its
    scale is softplus-derived, [softplus(raw) + 1e-5] at every position
    for an entry [raw] of [y]. *)
Theorem Gaussian_zero_std_learned_branch
        (torch : Torch) (base : Base) (input_dim output_dim : nat)
        (hidden_units : list nat) (slope : float64)
        (self : Gaussian.t) (x y : tensor) :
  self = Gaussian.__init__ input_dim output_dim hidden_units (Some f64_zero)
                           slope ->
  Sequential_forward (Gaussian.net self) x = Ok y ->
  last_dim y = Some output_dim ->
  Gaussian.net self =
    create_linear_network input_dim output_dim hidden_units (LeakyReLU slope)
                          weights_init_xavier /\
  run (Gaussian.forward (Tensor x)) self = Gaussian.learned_std y /\
  (forall d, run (Gaussian.forward (Tensor x)) self = Ok d ->
             last_dim (loc d) = Some ((output_dim + 1) / 2) /\
             last_dim (scale d) = Some ((output_dim + 1) / 2) /\
             (Nat.even output_dim = true ->
              last_dim (loc d) = Some (output_dim / 2)) /\
             (output_dim <> 0 -> last_dim (loc d) <> Some output_dim) /\
             Forall (fun v => exists raw,
                         In raw (data y) /\
                         v = f32_add (softplus_kernel raw) (to_float32 eps))
                    (data (scale d))).
Proof.
  intros Hself Hy Hn.
  assert (Hrun : run (Gaussian.forward (Tensor x)) self = Gaussian.learned_std y).
  { unfold run. rewrite Gaussian_forward_eq. cbn [snd as_tensor rbind].
    rewrite Hy. cbn [rbind]. rewrite Hself. reflexivity. }
  split; [rewrite Hself; reflexivity |].
  split; [exact Hrun |]. rewrite Hrun.
  intros d Hd.
  destruct (learned_std_last_dim y output_dim d Hn Hd) as [Hn1 [Hl Hs]].
  repeat split; [exact Hl | exact Hs | | |].
  - intros Heven. now rewrite Hl, half_up_even.
  - intros H0. rewrite Hl. intros [= E]. now apply (half_up_less output_dim).
  - now apply learned_std_scale.
Qed.

Lemma Gaussian_zero_std_learned_branch_witness :
  exists d,
    run (Gaussian.forward (torch := Sample.torch) (Tensor Sample.x12))
        (Sample.zero_std 2) = Ok d /\
    last_dim (loc d) = Some 1.
Proof.
  eexists. split; [reflexivity |].
  exact (proj1 (proj2 (proj2
           (Gaussian_zero_std_learned_branch
              Sample.torch Sample.base 2 2 [256; 256] Sample.slope
              (Sample.zero_std 2) Sample.x12 _ eq_refl eq_refl eq_refl))
         _ eq_refl)).
Defined.

(* ================================================================== *)
(** * Further properties of the code *)

(** ** weight_init *)

(** X1.  [weight_init] fails its assertion exactly on a convolution
    (plain or transposed) whose weight has sizes 2 and 3 that differ. *)
Theorem weight_init_asserts_iff (torch : Torch) (m : layer) :
  weight_init m = Raise AssertionError <->
  exists w k2 k3,
    conv_weight m = Some w /\
    size_at w 2 = Ok k2 /\ size_at w 3 = Ok k3 /\ k2 <> k3.
Proof.
  assert (Hconv : forall w b,
             conv_weight_init w b = Raise AssertionError <->
             exists k2 k3,
               size_at w 2 = Ok k2 /\ size_at w 3 = Ok k3 /\ k2 <> k3).
  { intros w b. unfold conv_weight_init.
    destruct (size_at w 2) as [k2 | e2] eqn:E2; cbn [rbind].
    - destruct (size_at w 3) as [k3 | e3] eqn:E3; cbn [rbind].
      + destruct (k2 =? k3) eqn:Ek.
        * apply Nat.eqb_eq in Ek. split.
          -- intros H. exfalso. revert H.
             apply fails_only_in_torch_never_asserts.
             apply fails_only_in_torch_rbind;
               [apply get_center_fails_only_in_torch | intros c].
             apply fails_only_in_torch_rbind; auto with torch_failure.
          -- intros [a [c [Ha [Hc Hne]]]].
             injection Ha as <-. injection Hc as <-. contradiction.
        * apply Nat.eqb_neq in Ek. split; [| reflexivity].
          intros _. exists k2, k3. auto.
      + assert (e3 = TorchError)
          by (apply (size_at_fails_only_in_torch w 3); exact E3).
        subst e3. split; [discriminate |].
        intros [a [c [_ [Hc _]]]]. discriminate.
    - assert (e2 = TorchError)
        by (apply (size_at_fails_only_in_torch w 2); exact E2).
      subst e2. split; [discriminate |].
      intros [a [c [Ha _]]]. discriminate. }
  assert (Hlift : forall (A B : Type) (r : result A) (f : A -> B),
             rbind r (fun a => Ok (f a)) = Raise AssertionError <->
             r = Raise AssertionError).
  { intros A B r f. destruct r as [a | e]; cbn [rbind].
    - split; discriminate.
    - split; intros H; injection H as ->; reflexivity. }
  destruct m as [w b | w b s p | w b s p op | a]; cbn [weight_init conv_weight].
  - split.
    + intros H. exfalso. revert H. apply fails_only_in_torch_never_asserts.
      apply fails_only_in_torch_rbind; auto with torch_failure.
    + intros [w0 [k2 [k3 [H _]]]]. discriminate.
  - rewrite (Hlift _ _ (conv_weight_init w b)
                   (fun wb => Conv2d (fst wb) (snd wb) s p)).
    rewrite Hconv. split.
    + intros [k2 [k3 H]]. exists w, k2, k3. auto.
    + intros [w0 [k2 [k3 [Hw H]]]]. injection Hw as <-. eauto.
  - rewrite (Hlift _ _ (conv_weight_init w b)
                   (fun wb => ConvTranspose2d (fst wb) (snd wb) s p op)).
    rewrite Hconv. split.
    + intros [k2 [k3 H]]. exists w, k2, k3. auto.
    + intros [w0 [k2 [k3 [Hw H]]]]. injection Hw as <-. eauto.
  - split; [discriminate |].
    intros [w0 [k2 [k3 [H _]]]]. discriminate.
Qed.

Lemma shape_set_center (w c : tensor) (mid : nat) :
  shape (set_center w mid c) = shape w.
Proof.
  unfold set_center.
  destruct (shape w) as [| d0 [| d1 [| k2 [| k3 [| ? ?]]]]] eqn:E;
    try exact E; reflexivity.
Qed.

Lemma Forall_fill_ (t : tensor) (v : float64) :
  Forall (fun u => u = to_float32 v) (data (fill_ t v)).
Proof. unfold fill_. apply Forall_tmap. reflexivity. Qed.

Lemma conv_weight_init_Ok (torch : Torch) (w b w' b' : tensor) :
  conv_weight_init w b = Ok (w', b') ->
  shape w' = shape w /\ b' = fill_ b f64_zero.
Proof.
  unfold conv_weight_init. intros H. steps H.
  destruct (r =? r0); [| discriminate]. steps H.
  injection H as <- <-. split; [| reflexivity].
  now rewrite shape_set_center.
Qed.

Lemma weight_init_Ok_inv (torch : Torch) (m m' : layer) :
  weight_init m = Ok m' ->
  signature_of m' = signature_of m /\ zero_bias m'.
Proof.
  destruct m as [w b | w b s p | w b s p op | a]; cbn [weight_init]; intros H.
  - steps H. injection H as <-. split; [reflexivity |].
    apply (Forall_fill_ _ f64_zero).
  - steps H. injection H as <-. destruct r as [w' b'].
    apply conv_weight_init_Ok in E as [Hw ->].
    cbn [signature_of fst snd]. rewrite Hw. split; [reflexivity |].
    apply (Forall_fill_ _ f64_zero).
  - steps H. injection H as <-. destruct r as [w' b'].
    apply conv_weight_init_Ok in E as [Hw ->].
    cbn [signature_of fst snd]. rewrite Hw. split; [reflexivity |].
    apply (Forall_fill_ _ f64_zero).
  - injection H as <-. split; [reflexivity | exact I].
Qed.

(** X2.  A layer that [weight_init] returns has the architecture of the
    layer it was given (kind, stride, paddings, shape of the bias and,
    for a convolution, of the weight), and a bias that is 0 everywhere;
    a layer that is neither linear nor a convolution is returned as it
    is, and never makes [weight_init] fail. *)
Theorem weight_init_keeps_signature_zeroes_bias
        (torch : Torch) (m m' : layer) :
  weight_init m = Ok m' ->
  signature_of m' = signature_of m /\ zero_bias m' /\
  (bias_of m = None -> m' = m) /\
  (bias_of m' = None -> weight_init m' = Ok m').
Proof.
  intros H. destruct (weight_init_Ok_inv torch m m' H) as [Hs Hz].
  split; [exact Hs |]. split; [exact Hz |]. split.
  - destruct m as [w b | w b s p | w b s p op | a]; cbn [bias_of];
      try discriminate.
    intros _. cbn [weight_init] in H. now injection H as <-.
  - destruct m' as [w b | w b s p | w b s p op | a]; cbn [bias_of];
      try discriminate.
    reflexivity.
Qed.

Lemma weight_init_keeps_signature_zeroes_bias_witness :
  exists m',
    weight_init (torch := Sample.torch)
                (nn_Conv2d (torch := Sample.torch) 1 2 3 1 1) = Ok m' /\
    signature_of m' = SigConv2d [2; 1; 3; 3] [2] 1 1 /\ zero_bias m'.
Proof.
  eexists. split; [reflexivity |].
  pose proof (weight_init_keeps_signature_zeroes_bias
                Sample.torch (nn_Conv2d (torch := Sample.torch) 1 2 3 1 1) _
                eq_refl) as H.
  split; [apply H | apply H].
Defined.

(** *** The weight of a convolution after [weight_init] *)

Lemma length_update_nth (i : nat) (v : float32) (l : list float32) :
  length (update_nth i v l) = length l.
Proof.
  revert i. induction l as [| a l IH]; intros [| i]; simpl; auto.
Qed.

Lemma nth_update_nth_other (i j : nat) (v : float32) (l : list float32) :
  j <> i -> nth j (update_nth i v l) f32_zero = nth j l f32_zero.
Proof.
  revert i j. induction l as [| a l IH]; intros [| i] [| j] H; simpl;
    try reflexivity; try contradiction.
  apply IH. lia.
Qed.

Lemma nth_all_zero (l : list float32) (j : nat) :
  Forall (fun v => v = f32_zero) l -> nth j l f32_zero = f32_zero.
Proof.
  intros H. revert j. induction H as [| a l Ha _ IH]; intros [| j]; simpl; auto.
Qed.

(** In a storage made of blocks of [m] entries that are 0 off position
    [c], an entry whose index is not [c] modulo [m] is 0. *)
Lemma nth_concat_off_centre (m c : nat) (ls : list (list float32)) :
  0 < m ->
  Forall (fun b => length b = m /\
                   forall j, j <> c -> nth j b f32_zero = f32_zero) ls ->
  forall i, i mod m <> c -> nth i (concat ls) f32_zero = f32_zero.
Proof.
  intros Hm H. induction H as [| b ls [Hlen Hb] _ IH]; intros i Hi.
  - now destruct i.
  - simpl. destruct (Nat.lt_ge_cases i m) as [Hlt | Hge].
    + rewrite app_nth1 by lia. apply Hb.
      now rewrite Nat.mod_small in Hi by exact Hlt.
    + rewrite app_nth2 by lia. rewrite Hlen. apply IH.
      replace i with ((i - m) + 1 * m) in Hi by lia.
      now rewrite Nat.Div0.mod_add in Hi.
Qed.

(** X3.  After [weight_init], a convolution whose weight held as many
    entries as its shape [(d0, d1, k, k)] says has a weight that is 0 at
    every position other than the centre [(k // 2, k // 2)] of a kernel:
    the delta initialisation. *)
Theorem weight_init_conv_weight_zero_off_centre
        (torch : Torch) (m m' : layer) (w w' : tensor) :
  weight_init m = Ok m' ->
  conv_weight m = Some w -> conv_weight m' = Some w' ->
  well_formed w ->
  exists d0 d1 k,
    shape w = [d0; d1; k; k] /\ 0 < k /\
    forall i, i mod (k * k) <> k / 2 * k + k / 2 ->
              nth i (data w') f32_zero = f32_zero.
Proof.
  intros Hinit Hw Hw' Hwf.
  assert (Hconv : forall b b', conv_weight_init w b = Ok (w', b') ->
            exists d0 d1 k,
              shape w = [d0; d1; k; k] /\ 0 < k /\
              forall i, i mod (k * k) <> k / 2 * k + k / 2 ->
                        nth i (data w') f32_zero = f32_zero).
  { intros b b' H. unfold conv_weight_init in H. steps H.
    destruct (r =? r0) eqn:Ek; [| discriminate].
    apply Nat.eqb_eq in Ek. steps H. injection H as <- _.
    unfold get_center in E1. cbn [shape fill_ tmap] in E1.
    destruct (shape w) as [| d0 [| d1 [| k2 [| k3 [| ? ?]]]]] eqn:Es;
      try discriminate.
    unfold size_at in E, E0. rewrite Es in E, E0. cbn in E, E0.
    injection E as E. injection E0 as E0. subst r r0 k3.
    destruct ((k2 / 2 <? k2) && (k2 / 2 <? k2)) eqn:Emid; [| discriminate].
    apply andb_prop in Emid as [Emid _]. apply Nat.ltb_lt in Emid.
    assert (Hk : 0 < k2) by lia.
    exists d0, d1, k2. split; [reflexivity |]. split; [exact Hk |].
    unfold set_center. cbn [shape fill_ tmap]. rewrite Es. cbn [data].
    apply nth_concat_off_centre; [nia |].
    apply Forall_forall. intros blk Hblk.
    apply in_map_iff in Hblk. destruct Hblk as [[b0 v] [<- Hin]].
    apply in_combine_l in Hin. cbn [fst snd].
    assert (Hlen : length b0 = k2 * k2).
    { apply In_blocks_length with (d0 * d1) (map (fun _ => f32_zero) (data w));
        [| exact Hin].
      rewrite length_map. unfold well_formed in Hwf. rewrite Hwf, Es.
      simpl. nia. }
    split.
    - now rewrite length_update_nth.
    - intros j Hj. rewrite nth_update_nth_other by exact Hj.
      apply nth_all_zero.
      pose proof (Forall_blocks (fun v => v = f32_zero) (d0 * d1) (k2 * k2)
                    (map (fun _ => f32_zero) (data w))) as Hall.
      assert (Hz : Forall (fun v => v = f32_zero) (map (fun _ => f32_zero) (data w))).
      { apply Forall_forall. intros u Hu. apply in_map_iff in Hu.
        now destruct Hu as [? [<- _]]. }
      specialize (Hall Hz). rewrite Forall_forall in Hall. now apply Hall. }
  destruct m as [w0 b | w0 b s p | w0 b s p op | a]; cbn [conv_weight] in Hw;
    try discriminate; injection Hw as ->; cbn [weight_init] in Hinit;
    steps Hinit; injection Hinit as <-; destruct r as [w1 b1];
    cbn [conv_weight fst] in Hw'; injection Hw' as ->;
    now apply Hconv with b b1.
Qed.

Lemma weight_init_conv_weight_zero_off_centre_witness :
  exists m' w',
    weight_init (torch := Sample.torch)
                (nn_Conv2d (torch := Sample.torch) 1 2 3 1 1) = Ok m' /\
    conv_weight m' = Some w' /\
    nth 0 (data w') f32_zero = f32_zero.
Proof.
  eexists. eexists. split; [reflexivity |]. split; [reflexivity |].
  destruct (weight_init_conv_weight_zero_off_centre
              Sample.torch (nn_Conv2d (torch := Sample.torch) 1 2 3 1 1) _
              _ _ eq_refl eq_refl eq_refl eq_refl)
    as [d0 [d1 [k [Hs [Hk H]]]]].
  injection Hs as _ _ <-.
  apply H. simpl. discriminate.
Defined.

(** ** Construction *)

Lemma apply_weight_init_Ok (torch : Torch) (ms : list layer) :
  forall ms', apply_weight_init ms = Ok ms' ->
              map signature_of ms' = map signature_of ms /\
              Forall zero_bias ms'.
Proof.
  unfold apply_weight_init.
  induction ms as [| m ms IH]; intros ms' H; cbn [rmap_list] in H.
  - injection H as <-. split; [reflexivity | constructor].
  - steps H. injection H as <-.
    destruct (weight_init_Ok_inv torch m r E) as [Hs Hz].
    destruct (IH r0 E0) as [Hss Hzs].
    cbn [map]. rewrite Hs, Hss. split; [reflexivity | now constructor].
Qed.

(** X4.  A [Decoder] that its constructor returns holds the [std] and
    [leaky_slope] it was given and nine layers, six transposed
    convolutions followed by three convolutions with the shapes, strides
    and paddings written in the constructor, each with a bias that is 0
    everywhere; so [convts[0]] to [convts[8]] exist. *)
Theorem Decoder_init_architecture
        (torch : Torch) (input_dim output_dim : nat) (std slope : float64)
        (bot_dim : nat) (self : Decoder.t) :
  Decoder.__init__ input_dim output_dim std slope bot_dim = Ok self ->
  Decoder.std self = std /\
  Decoder.leaky_slope self = slope /\
  map signature_of (Decoder.convts self) =
    [ SigConvTranspose2d [input_dim; 64; 27; 27] [64] 1 0 0;
      SigConvTranspose2d [64; 64; 3; 3] [64] 1 1 0;
      SigConvTranspose2d [64; 64; 3; 3] [64] 2 1 1;
      SigConvTranspose2d [64; 32; 3; 3] [32] 1 1 0;
      SigConvTranspose2d [32; 32; 3; 3] [32] 2 1 1;
      SigConvTranspose2d [32; 32; 5; 5] [32] 2 2 1;
      SigConv2d [64; 32; 3; 3] [64] 1 1;
      SigConv2d [64; 64; 3; 3] [64] 1 1;
      SigConv2d [output_dim; 64; 3; 3] [output_dim] 1 1 ] /\
  length (Decoder.convts self) = 9 /\
  Forall zero_bias (Decoder.convts self).
Proof.
  unfold Decoder.__init__. intros H. steps H. injection H as <-.
  apply apply_weight_init_Ok in E as [Hs Hz].
  cbn [Decoder.std Decoder.leaky_slope Decoder.convts].
  split; [reflexivity |].
  split; [reflexivity |].
  split; [rewrite Hs; reflexivity |].
  split; [rewrite <- (length_map signature_of), Hs; reflexivity | exact Hz].
Qed.

Lemma Decoder_init_architecture_witness :
  exists self,
    Decoder.__init__ (torch := Sample.torch) 1 1 f64_one Sample.slope 10
    = Ok self /\
    length (Decoder.convts self) = 9 /\
    Forall zero_bias (Decoder.convts self).
Proof.
  eexists. split; [reflexivity |].
  exact (proj2 (proj2 (proj2
           (Decoder_init_architecture Sample.torch 1 1 f64_one Sample.slope 10 _
                                      eq_refl)))).
Defined.

(** X5.  An [Encoder] that its constructor returns holds the
    [leaky_slope] it was given, six convolutions with the shapes,
    strides and paddings written in the constructor, and a Gaussian head
    with [std=None] whose network has the architecture of the linear
    network from [27*27*64] inputs to [2 * latent_dim] outputs; the
    biases of the convolutions and of the layers of the head are 0
    everywhere. *)
Theorem Encoder_init_architecture
        (torch : Torch) (base : Base) (input_dim latent_dim : nat)
        (hidden_units : list nat) (slope : float64) (self : Encoder.t) :
  Encoder.__init__ input_dim latent_dim hidden_units slope = Ok self ->
  Encoder.leaky_slope self = slope /\
  map signature_of (Encoder.convs self) =
    [ SigConv2d [32; input_dim; 5; 5] [32] 2 2;
      SigConv2d [32; 32; 3; 3] [32] 2 1;
      SigConv2d [64; 32; 3; 3] [64] 1 1;
      SigConv2d [64; 64; 3; 3] [64] 2 1;
      SigConv2d [64; 64; 3; 3] [64] 1 1;
      SigConv2d [64; 64; 1; 1] [64] 1 0 ] /\
  length (Encoder.convs self) = 6 /\
  Forall zero_bias (Encoder.convs self) /\
  Gaussian.std (Encoder.gau self) = None /\
  map signature_of (Gaussian.net (Encoder.gau self)) =
    map signature_of
        (create_linear_network (27 * 27 * 64) (2 * latent_dim) hidden_units
                               (LeakyReLU slope) weights_init_xavier) /\
  Forall zero_bias (Gaussian.net (Encoder.gau self)).
Proof.
  unfold Encoder.__init__. intros H. steps H. injection H as <-.
  apply apply_weight_init_Ok in E as [Hs Hz].
  apply apply_weight_init_Ok in E0 as [Hs0 Hz0].
  cbn [Encoder.leaky_slope Encoder.convs Encoder.gau Gaussian.std Gaussian.net].
  split; [reflexivity |].
  split; [rewrite Hs; reflexivity |].
  split; [rewrite <- (length_map signature_of), Hs; reflexivity |].
  split; [exact Hz |].
  split; [reflexivity |].
  split; [exact Hs0 | exact Hz0].
Qed.

Lemma Encoder_init_architecture_witness :
  exists self,
    Encoder.__init__ (torch := Sample.torch) (base := Sample.base)
                     3 1 [256; 256] Sample.slope = Ok self /\
    length (Encoder.convs self) = 6 /\
    Gaussian.std (Encoder.gau self) = None.
Proof.
  eexists. split; [reflexivity |].
  pose proof (Encoder_init_architecture Sample.torch Sample.base 3 1
                [256; 256] Sample.slope _ eq_refl) as H.
  split; [apply H | apply H].
Defined.

(** ** The Gaussian head, branch by branch *)

Lemma well_formed_repeat (y : tensor) (c : float32) :
  well_formed (mkTensor (shape y) (repeat c (length (data y)))) <->
  well_formed y.
Proof. unfold well_formed. cbn [data shape]. now rewrite repeat_length. Qed.


Lemma Gaussian_forward_learned (torch : Torch) (self : Gaussian.t) (x : input)
      (xt y : tensor) :
  Gaussian.std self = None \/ Gaussian.std self = Some f64_zero ->
  as_tensor x = Ok xt ->
  Sequential_forward (Gaussian.net self) xt = Ok y ->
  run (Gaussian.forward x) self = Gaussian.learned_std y.
Proof.
  intros Hstd Hx Hy. unfold run. rewrite Gaussian_forward_eq. cbn [snd].
  rewrite Hx. cbn [rbind]. rewrite Hy. cbn [rbind].
  destruct Hstd as [-> | ->]; reflexivity.
Qed.



Lemma shape_snoc (t : tensor) (n : nat) :
  last_dim t = Some n -> shape t = removelast (shape t) ++ [n].
Proof.
  unfold last_dim. intros H.
  destruct (rev (shape t)) as [| m l] eqn:E; [discriminate |].
  injection H as ->.
  assert (Hs : shape t = rev l ++ [n]).
  { rewrite <- (rev_involutive (shape t)), E. reflexivity. }
  rewrite Hs at 2. rewrite removelast_last. exact Hs.
Qed.

(** The learned-scale branch, by the number [n] of columns it is given. *)
Lemma learned_std_by_width {torch : Torch} (y : tensor) (n : nat) :
  last_dim y = Some n ->
  (n = 1 -> Gaussian.learned_std y = Raise UnpackValueError) /\
  (Nat.odd n = true -> 5 <= n -> Gaussian.learned_std y = Raise TorchError) /\
  (Nat.even n = true \/ n = 3 -> validate_args = false ->
   exists d, Gaussian.learned_std y = Ok d).
Proof.
  intros Hn. unfold Gaussian.learned_std, chunk2. rewrite Hn. cbv zeta.
  split; [| split].
  - intros ->. reflexivity.
  - intros Hodd H5. apply Nat.odd_spec in Hodd. destruct Hodd as [k ->].
    replace ((2 * k + 1 + 1) / 2) with (k + 1)
      by (replace (2 * k + 1 + 1) with ((k + 1) * 2) by lia;
          now rewrite Nat.div_mul).
    replace (2 * k + 1 =? 0) with false by (symmetry; apply Nat.eqb_neq; lia).
    replace (2 * k + 1 <=? k + 1) with false
      by (symmetry; apply Nat.leb_gt; lia).
    cbn [rbind unpack2 fst snd]. unfold Normal_init.
    cbn [shape add_scalar softplus tmap].
    rewrite broadcast_shapes_last.
    replace (k + 1 =? 2 * k + 1 - (k + 1)) with false
      by (symmetry; apply Nat.eqb_neq; lia).
    replace (k + 1 =? 1) with false by (symmetry; apply Nat.eqb_neq; lia).
    replace (2 * k + 1 - (k + 1) =? 1) with false
      by (symmetry; apply Nat.eqb_neq; lia).
    reflexivity.
  - intros [Heven | ->] Hval.
    + apply Nat.even_spec in Heven. destruct Heven as [k ->].
      pose proof (chunk2_even y k Hn) as Hc. unfold chunk2 in Hc.
      rewrite Hn in Hc. cbv zeta in Hc. rewrite Hc.
      cbn [rbind unpack2 fst snd].
      erewrite Normal_init_Ok; [eexists; reflexivity | | now left].
      cbn [shape add_scalar softplus tmap]. apply broadcast_shapes_same.
    + cbn [Nat.eqb Nat.leb Nat.add Nat.div Nat.divmod fst Nat.sub].
      cbn [rbind unpack2 fst snd].
      erewrite Normal_init_Ok; [eexists; reflexivity | | now left].
      cbn [shape add_scalar softplus tmap].
      rewrite broadcast_shapes_last. reflexivity.
Qed.

(** X7.  A head whose [std] is [None] or 0 takes the learned-scale
    branch, and what it does depends on the number [n] of columns its
    network returns: with one column the destructuring of the pieces
    raises ValueError; with an odd number from 5 on the two pieces
    cannot be broadcast and [Normal] raises; a [Normal] that is returned
    has [ceil(n / 2)] columns, and with an even number of columns, or
    with 3, one is returned whenever the framework does not validate
    the arguments. *)
Theorem Gaussian_forward_learned_branch_by_width
        (torch : Torch) (self : Gaussian.t) (x : input) (xt y : tensor)
        (n : nat) :
  Gaussian.std self = None \/ Gaussian.std self = Some f64_zero ->
  as_tensor x = Ok xt ->
  Sequential_forward (Gaussian.net self) xt = Ok y ->
  last_dim y = Some n ->
  (n = 1 -> run (Gaussian.forward x) self = Raise UnpackValueError) /\
  (Nat.odd n = true -> 5 <= n ->
   run (Gaussian.forward x) self = Raise TorchError) /\
  (forall d, run (Gaussian.forward x) self = Ok d ->
             last_dim (loc d) = Some ((n + 1) / 2) /\
             last_dim (scale d) = Some ((n + 1) / 2)) /\
  (Nat.even n = true \/ n = 3 -> validate_args = false ->
   exists d, run (Gaussian.forward x) self = Ok d).
Proof.
  intros Hstd Hx Hy Hn.
  rewrite (Gaussian_forward_learned torch self x xt y Hstd Hx Hy).
  destruct (learned_std_by_width y n Hn) as [H1 [H5 Hret]].
  split; [exact H1 |]. split; [exact H5 |]. split; [| exact Hret].
  intros d Hd. exact (proj2 (learned_std_last_dim y n d Hn Hd)).
Qed.

Lemma Gaussian_forward_learned_branch_by_width_witness :
  run (Gaussian.forward (torch := Sample.torch) (Tensor Sample.x12))
      (Sample.zero_std 1) = Raise UnpackValueError /\
  run (Gaussian.forward (torch := Sample.torch) (Tensor Sample.x12))
      (Sample.zero_std 5) = Raise TorchError /\
  exists d,
    run (Gaussian.forward (torch := Sample.torch) (Tensor Sample.x12))
        (Sample.zero_std 3) = Ok d.
Proof.
  split; [| split].
  - exact (proj1 (Gaussian_forward_learned_branch_by_width
                    Sample.torch (Sample.zero_std 1) (Tensor Sample.x12)
                    Sample.x12 _ 1 (or_intror eq_refl) eq_refl eq_refl
                    eq_refl) eq_refl).
  - exact (proj1 (proj2 (Gaussian_forward_learned_branch_by_width
                    Sample.torch (Sample.zero_std 5) (Tensor Sample.x12)
                    Sample.x12 _ 5 (or_intror eq_refl) eq_refl eq_refl
                    eq_refl)) eq_refl (le_n 5)).
  - exact (proj2 (proj2 (proj2 (Gaussian_forward_learned_branch_by_width
                    Sample.torch (Sample.zero_std 3) (Tensor Sample.x12)
                    Sample.x12 _ 3 (or_intror eq_refl) eq_refl eq_refl
                    eq_refl))) (or_intror eq_refl) eq_refl).
Defined.

(** *** Rows of a well-formed tensor *)

Lemma numel_snoc (l : list nat) (n : nat) : numel (l ++ [n]) = numel l * n.
Proof.
  unfold numel. induction l as [| a l IH]; simpl; [lia |].
  rewrite IH. lia.
Qed.

Lemma length_blocks (k n : nat) (d : list float32) : length (blocks k n d) = k.
Proof. unfold blocks. now rewrite length_map, length_seq. Qed.


Lemma well_formed_length (y : tensor) (n : nat) :
  well_formed y -> last_dim y = Some n ->
  length (data y) = numel (removelast (shape y)) * n.
Proof.
  unfold well_formed. intros Hwf Hn. rewrite Hwf.
  rewrite (shape_snoc y n Hn) at 1. apply numel_snoc.
Qed.





(** ** The task network: the two pieces make up the output *)

Lemma nth_block_concat (k : nat) (ls : list (list float32)) :
  Forall (fun b => length b = k) ls ->
  forall i, i < length ls ->
            firstn k (skipn (i * k) (concat ls)) = nth i ls [].
Proof.
  induction 1 as [| b ls Hb _ IH]; intros i Hi; [simpl in Hi; lia |].
  cbn [concat]. destruct i as [| i].
  - cbn [Nat.mul skipn nth]. rewrite firstn_app, Hb, Nat.sub_diag.
    cbn [firstn]. rewrite app_nil_r. rewrite <- Hb. apply firstn_all.
  - cbn [nth]. rewrite skipn_app, Hb.
    rewrite (skipn_all2 b) by (rewrite Hb; simpl; lia).
    cbn [app]. replace (S i * k - k) with (i * k) by (simpl; lia).
    apply IH. simpl in Hi. lia.
Qed.

Lemma map_nth_seq_all (A : Type) (d : A) (ls : list A) :
  map (fun i => nth i ls d) (seq 0 (length ls)) = ls.
Proof.
  induction ls as [| a ls IH]; [reflexivity |].
  cbn [length seq map nth]. f_equal.
  rewrite <- seq_shift, map_map. exact IH.
Qed.

Lemma nth_map_in (A B : Type) (f : A -> B) (l : list A) (i : nat)
      (d1 : B) (d2 : A) :
  i < length l -> nth i (map f l) d1 = f (nth i l d2).
Proof.
  intros H. rewrite (nth_indep _ d1 (f d2)) by now rewrite length_map.
  apply map_nth.
Qed.

Lemma halves_rejoin (k : nat) (r : list float32) :
  length r = 2 * k -> firstn k r ++ firstn k (skipn k r) = r.
Proof.
  intros H. rewrite (firstn_all2 (skipn k r)).
  - apply firstn_skipn.
  - rewrite length_skipn. lia.
Qed.

Lemma shape_eqb_refl (s : list nat) : shape_eqb s s = true.
Proof. unfold shape_eqb. destruct (list_eq_dec Nat.eq_dec s s); congruence. Qed.

(** Concatenating two tensors that share their leading dimensions and
    are not skipped. *)
Lemma cat_pair (a b : tensor) (lead : list nat) (na nb : nat) :
  shape a = lead ++ [na] -> shape b = lead ++ [nb] ->
  cat_skips a = false -> cat_skips b = false ->
  cat [a; b] =
  Ok (mkTensor (lead ++ [na + nb])
               (flat_map (fun i => row a na i ++ row b nb i)
                         (seq 0 (numel lead)))).
Proof.
  intros Ha Hb Hsa Hsb. unfold cat. cbn [filter]. rewrite Hsa, Hsb.
  cbn [negb forallb]. rewrite Ha, Hb, !removelast_last.
  assert (Hne : forall n, match lead ++ [n] with
                          | [] => false
                          | _ :: _ => shape_eqb lead lead
                          end = true).
  { intros n. destruct (lead ++ [n]) eqn:E.
    - destruct lead; discriminate.
    - apply shape_eqb_refl. }
  rewrite !Hne. cbn [andb map fold_right].
  assert (La : last_or0 a = na)
    by (unfold last_or0, last_dim; now rewrite Ha, rev_unit).
  assert (Lb : last_or0 b = nb)
    by (unfold last_or0, last_dim; now rewrite Hb, rev_unit).
  rewrite La, Lb, Nat.add_0_r. f_equal. f_equal.
  apply flat_map_ext. intros i. cbn [flat_map].
  now rewrite La, Lb, app_nil_r.
Qed.

(** Cutting a well-formed tensor with [2 * k] columns in two and
    concatenating the pieces gives it back. *)
Lemma cat_chunk2_even (y : tensor) (k : nat) (ps : list tensor) :
  well_formed y -> last_dim y = Some (2 * k) -> chunk2 y = Ok ps ->
  cat ps = Ok y.
Proof.
  intros Hwf Hn Hc. rewrite (chunk2_even y k Hn) in Hc. injection Hc as <-.
  pose proof (shape_snoc y (2 * k) Hn) as Hshape.
  pose proof (well_formed_length y (2 * k) Hwf Hn) as Hlen.
  remember (removelast (shape y)) as lead eqn:Elead. clear Elead Hn Hwf.
  destruct y as [sh d]. cbn [shape data] in *. subst sh.
  change (k + (k + 0)) with (2 * k) in *.
  assert (Hdata : concat (blocks (numel lead) (2 * k) d) = d)
    by (apply concat_blocks; exact Hlen).
  assert (Hrows : forall r, In r (blocks (numel lead) (2 * k) d) ->
                            length r = 2 * k).
  { intros r Hr. apply In_blocks_length with (numel lead) d; [lia | exact Hr]. }
  remember (blocks (numel lead) (2 * k) d) as rows eqn:Erows.
  assert (Hnum : length rows = numel lead)
    by (rewrite Erows; apply length_blocks).
  clear Erows Hlen.
  destruct (list_eq_dec Nat.eq_dec (lead ++ [k]) [0]) as [Hskip | Hkeep].
  - (* both pieces are one-dimensional and empty *)
    assert (Hlead : lead = [] /\ k = 0).
    { destruct lead as [| a [| b l]]; simpl in Hskip.
      - injection Hskip as ->. auto.
      - discriminate.
      - discriminate. }
    destruct Hlead as [-> ->].
    unfold cat, cat_skips. cbn [filter shape app].
    rewrite shape_eqb_refl. cbn [negb].
    cbn in Hnum. destruct rows as [| r [| r' rows]]; try discriminate.
    cbn in Hdata. rewrite app_nil_r in Hdata. subst d.
    assert (Hr : length r = 2 * 0) by (apply Hrows; now left).
    destruct r; [reflexivity | discriminate].
  - assert (Hns : shape_eqb (lead ++ [k]) [0] = false).
    { unfold shape_eqb.
      destruct (list_eq_dec Nat.eq_dec (lead ++ [k]) [0]);
        [contradiction | reflexivity]. }
    rewrite (cat_pair _ _ lead k k); try reflexivity; try exact Hns.
    replace (k + k) with (2 * k) by lia. f_equal. f_equal.
    rewrite <- Hdata. rewrite <- Hnum.
    transitivity (flat_map (fun i => nth i rows []) (seq 0 (length rows)));
      [| now rewrite flat_map_concat_map, map_nth_seq_all].
    rewrite !(flat_map_concat_map _ (seq 0 (length rows))). f_equal.
    apply map_ext_in. intros i Hi. apply in_seq in Hi.
    unfold row. cbn [data]. rewrite !flat_map_concat_map.
    rewrite (nth_block_concat k), (nth_block_concat k).
    + rewrite (nth_map_in _ _ (fun r => firstn k r) rows i [] []) by lia.
      rewrite (nth_map_in _ _ (fun r => firstn k (skipn k r)) rows i [] [])
        by lia.
      apply halves_rejoin. apply Hrows. apply nth_In. lia.
    + apply Forall_forall. intros b Hb. apply in_map_iff in Hb.
      destruct Hb as [r [<- Hr]]. rewrite length_firstn, length_skipn.
      rewrite (Hrows r Hr). lia.
    + rewrite length_map. lia.
    + apply Forall_forall. intros b Hb. apply in_map_iff in Hb.
      destruct Hb as [r [<- Hr]]. rewrite length_firstn.
      rewrite (Hrows r Hr). lia.
    + rewrite length_map. lia.
Qed.

(** X9.  When the network of a [TaskNetwork] returns a well-formed [y]
    with [2 * k] columns, the list [[gamma, bias]] that [forward]
    returns holds all of [y] and nothing else: concatenating it along
    the last dimension gives [y] back. *)
Theorem TaskNetwork_forward_pieces_concatenate
        (torch : Torch) (self : TaskNetwork.t) (x y : tensor) (k : nat) :
  Sequential_forward (TaskNetwork.net self) x = Ok y ->
  well_formed y -> last_dim y = Some (2 * k) ->
  exists gamma bias,
    run (TaskNetwork.forward (Tensor x)) self = Ok [gamma; bias] /\
    cat [gamma; bias] = Ok y.
Proof.
  intros Hy Hwf Hn.
  pose proof (chunk2_even y k Hn) as Hc. cbv zeta in Hc.
  eexists. eexists. split.
  - unfold run. rewrite TaskNetwork_forward_eq. cbn [snd as_tensor rbind].
    rewrite Hy. cbn [rbind]. rewrite Hc. reflexivity.
  - exact (cat_chunk2_even y k _ Hwf Hn Hc).
Qed.

Lemma TaskNetwork_forward_pieces_concatenate_witness :
  exists gamma bias y,
    run (TaskNetwork.forward (torch := Sample.torch) (Tensor Sample.x12))
        Sample.task = Ok [gamma; bias] /\
    Sequential_forward (torch := Sample.torch)
                       (TaskNetwork.net Sample.task) Sample.x12 = Ok y /\
    cat [gamma; bias] = Ok y.
Proof.
  destruct (TaskNetwork_forward_pieces_concatenate
              Sample.torch Sample.task Sample.x12 _ 1 eq_refl eq_refl eq_refl)
    as [gamma [bias [Hrun Hcat]]].
  exists gamma, bias. eexists. split; [exact Hrun |].
  split; [reflexivity | exact Hcat].
Defined.

(** ** Ranks and batches *)

(** X10.  [Decoder.forward] raises the ValueError of a destructuring
    assignment exactly when its argument is not of rank 2; every other
    failure of [Decoder.forward] is raised by the framework. *)
Theorem Decoder_forward_unpack_error_iff
        (torch : Torch) (self : Decoder.t) (x : tensor) :
  (run (Decoder.forward x) self = Raise UnpackValueError <->
   length (size x) <> 2) /\
  (forall e, run (Decoder.forward x) self = Raise e ->
             e <> UnpackValueError -> e = TorchError).
Proof.
  unfold run. rewrite Decoder_forward_eq. cbn [snd].
  assert (Hf : forall a b,
             fails_only_in_torch
               (rbind (view x [a; b; 1; 1]) (fun latent =>
                rbind (conv_loop (Decoder.convts self)
                                 (Decoder.leaky_slope self) (seq 0 8) latent)
                      (fun latent =>
                rbind (call_item (Decoder.convts self) 8 latent) (fun y =>
                let recon := torch_tanh y in
                Normal_init recon
                  (mul_scalar (ones_like recon) (Decoder.std self))))))).
  { intros a b. repeat (apply fails_only_in_torch_rbind; [| intro]);
      cbv zeta; auto with torch_failure. }
  split.
  - destruct (size x) as [| a [| b [| c l]]]; cbn [length];
      try (split; [intros _; lia | reflexivity]).
    split; [| intros H; now contradiction H].
    intros H. exfalso. specialize (Hf a b _ H). discriminate.
  - intros e H Hne.
    destruct (size x) as [| a [| b [| c l]]];
      try (injection H as <-; now contradiction Hne).
    exact (Hf a b e H).
Qed.

(** X11.  [Encoder.forward] returns only on an argument of rank 4 with
    a batch that is not empty: any other rank raises the ValueError of
    the destructuring of [x.size()], and with [num_batches = 0] the
    [view(num_batches, -1)] is refused by the framework. *)
Theorem Encoder_forward_needs_rank_4_batch
        (torch : Torch) (self : Encoder.t) (x : tensor) :
  (length (size x) <> 4 ->
   run (Encoder.forward x) self = Raise UnpackValueError) /\
  (forall c h w, size x = [0; c; h; w] ->
                 run (Encoder.forward x) self = Raise TorchError) /\
  (forall r, run (Encoder.forward x) self = Ok r ->
             exists n c h w, size x = [S n; c; h; w]).
Proof.
  unfold run. rewrite Encoder_forward_eq. cbn [snd].
  assert (Hempty : forall c h w, size x = [0; c; h; w] ->
            rbind (conv_loop (Encoder.convs self) (Encoder.leaky_slope self)
                             (seq 0 6) x) (fun x0 =>
            rbind (view_rows x0 0) (fun x1 =>
            rbind (run (Gaussian.forward (Tensor x1)) (Encoder.gau self))
                  (fun dist => Ok (loc dist, dist)))) = Raise TorchError).
  { intros c h w Hs.
    destruct (conv_loop _ _ _ x) as [z | e] eqn:E; cbn [rbind].
    - reflexivity.
    - f_equal. exact (conv_loop_fails_only_in_torch _ _ _ x e E). }
  split; [| split].
  - destruct (size x) as [| n [| c [| h [| w [| ? ?]]]]]; cbn [length];
      try reflexivity.
    intros H. now contradiction H.
  - intros c h w Hs. rewrite Hs. now apply Hempty with c h w.
  - intros r H.
    destruct (size x) as [| n [| c [| h [| w [| ? ?]]]]] eqn:Es;
      try discriminate.
    destruct n as [| n].
    + rewrite (Hempty c h w eq_refl) in H. discriminate.
    + exists n, c, h, w. reflexivity.
Qed.

(** ** Construction followed by a forward pass *)

Lemma Normal_init_shapes {torch : Torch} (l s : tensor) (d : Normal) :
  Normal_init l s = Ok d -> shape (loc d) = shape (scale d).
Proof.
  unfold Normal_init. intros H.
  destruct (broadcast_shapes (shape l) (shape s)) as [sh |]; [| discriminate].
  cbv zeta in H. destruct (validate_args && _); [discriminate |].
  now injection H as <-.
Qed.

(** X12.  An [Encoder] built by its constructor has a head that learns
    its scale: in every pair [(mean, dist)] its [forward] returns,
    [dist] is the [Normal] of the two pieces [m] and [raw] that
    [torch.chunk] cuts the output of the network of the head in, built
    as [Normal(m, softplus(raw) + 1e-5)]; its scale has the shape of
    [mean] and is at every position [softplus(r) + 1e-5], computed in
    binary32, for an entry [r] of that output, strictly positive unless
    that softplus is negative or NaN. *)
Theorem Encoder_constructed_forward_learned_scale
        (torch : Torch) (base : Base) (input_dim latent_dim : nat)
        (hidden_units : list nat) (slope : float64) (self : Encoder.t)
        (x mean : tensor) (dist : Normal) :
  Encoder.__init__ input_dim latent_dim hidden_units slope = Ok self ->
  run (Encoder.forward x) self = Ok (mean, dist) ->
  exists flat y m raw : tensor,
    Sequential_forward (Gaussian.net (Encoder.gau self)) flat = Ok y /\
    chunk2 y = Ok [m; raw] /\
    Normal_init m (add_scalar (softplus raw) eps) = Ok dist /\
    shape (scale dist) = shape mean /\
    Forall (fun v => exists r,
                In r (data y) /\
                v = f32_add (softplus_kernel r) (to_float32 eps) /\
                (SFleb f32_zero (softplus_kernel r) = true ->
                 is_positive v = true))
           (data (scale dist)).
Proof.
  intros Hinit Hrun.
  assert (Hstd : Gaussian.std (Encoder.gau self) = None).
  { unfold Encoder.__init__ in Hinit. steps Hinit. now injection Hinit as <-. }
  unfold run in Hrun. rewrite Encoder_forward_eq in Hrun. cbn [snd] in Hrun.
  destruct (size x) as [| n [| c [| h [| w [| ? ?]]]]]; try discriminate.
  apply rbind_Ok in Hrun. destruct Hrun as [feat [_ Hrun]].
  apply rbind_Ok in Hrun. destruct Hrun as [flat [_ Hrun]].
  apply rbind_Ok in Hrun. destruct Hrun as [dist' [Hgau Hrun]].
  injection Hrun as <- <-.
  unfold run in Hgau. rewrite Gaussian_forward_eq in Hgau.
  cbn [snd as_tensor rbind] in Hgau. rewrite Hstd in Hgau.
  apply rbind_Ok in Hgau. destruct Hgau as [y [Hy Hlearn]].
  pose proof (learned_std_scale y dist' Hlearn) as Hscale.
  unfold Gaussian.learned_std in Hlearn.
  apply rbind_Ok in Hlearn. destruct Hlearn as [ps [Hc Hlearn]].
  apply rbind_Ok in Hlearn. destruct Hlearn as [[m raw] [Hu Hn]].
  cbn [fst snd] in Hn.
  destruct ps as [| m' [| raw' [| ? ?]]]; try discriminate.
  injection Hu as -> ->.
  exists flat, y, m, raw.
  split; [exact Hy |]. split; [exact Hc |]. split; [exact Hn |].
  split; [symmetry; now apply Normal_init_shapes in Hn |].
  rewrite Forall_forall in *. intros v Hv.
  destruct (Hscale v Hv) as [r [Hin ->]]. exists r.
  repeat split; [exact Hin |]. apply f32_add_eps_positive.
Qed.

Lemma Encoder_constructed_forward_learned_scale_witness :
  exists self mean dist,
    Encoder.__init__ (torch := Sample.torch) (base := Light.base)
                     2 1 [256; 256] Sample.slope = Ok self /\
    run (Encoder.forward (torch := Sample.torch) Sample.image) self
    = Ok (mean, dist) /\
    exists flat y m raw : tensor,
      Sequential_forward (torch := Sample.torch)
                         (Gaussian.net (Encoder.gau self)) flat = Ok y /\
      chunk2 y = Ok [m; raw] /\
      Normal_init (torch := Sample.torch) m
                  (add_scalar (softplus (torch := Sample.torch) raw) eps)
      = Ok dist /\
      shape (scale dist) = shape mean /\
      Forall (fun v => exists r,
                  In r (data y) /\
                  v = f32_add (softplus_kernel (Torch := Sample.torch) r)
                              (to_float32 eps) /\
                  (SFleb f32_zero (softplus_kernel (Torch := Sample.torch) r)
                   = true ->
                   is_positive v = true))
             (data (scale dist)).
Proof.
  eexists. eexists. eexists.
  split; [reflexivity |]. split; [reflexivity |].
  exact (Encoder_constructed_forward_learned_scale
           Sample.torch Light.base 2 1 [256; 256] Sample.slope
           _ Sample.image _ _ eq_refl eq_refl).
Defined.

Lemma Decoder_forward_scale (torch : Torch) (self : Decoder.t) (x : tensor)
      (d : Normal) :
  run (Decoder.forward x) self = Ok d ->
  Forall (fun v => v = to_float32 (Decoder.std self)) (data (scale d)).
Proof.
  unfold run. rewrite Decoder_forward_eq. cbn [snd]. intros H.
  destruct (size x) as [| a [| b [| c l]]]; try discriminate.
  steps H. cbv zeta in H.
  apply (Normal_init_Forall (fun _ => True)
                            (fun v => v = to_float32 (Decoder.std self))) in H.
  - apply H.
  - now apply Forall_all.
  - apply Forall_fixed_scale.
Qed.

(** X13.  The decoder of a [LatentNetwork] built by its constructor has
    the standard deviation [np.sqrt(0.1)], a binary64 number: every
    distribution its [forward] returns has, at every position, the scale
    [10610843 * 2^-25], about 0.31622776, which is that number rounded
    to binary32; it is positive, and it is not [np.sqrt(0.1)] itself. *)
Theorem LatentNetwork_decoder_scale
        (torch : Torch) (base : Base) (observation_shape latent_dim : nat)
        (slope : float64) (hidden_units : list nat) (self : LatentNetwork.t)
        (z : tensor) (d : Normal) :
  LatentNetwork.__init__ observation_shape latent_dim slope hidden_units
  = Ok self ->
  run (Decoder.forward z) (LatentNetwork.decoder self) = Ok d ->
  Decoder.std (LatentNetwork.decoder self) = f64_sqrt f64_tenth /\
  Forall (fun v => v = S754_finite false 10610843 (-25) /\
                   is_positive v = true /\
                   same_number v (Decoder.std (LatentNetwork.decoder self))
                   = false)
         (data (scale d)).
Proof.
  intros Hinit Hrun.
  assert (Hstd : Decoder.std (LatentNetwork.decoder self)
                 = f64_sqrt f64_tenth).
  { unfold LatentNetwork.__init__ in Hinit. steps Hinit.
    injection Hinit as <-. cbn [LatentNetwork.decoder].
    unfold Decoder.__init__ in E0. steps E0. now injection E0 as <-. }
  split; [exact Hstd |].
  pose proof (Decoder_forward_scale torch _ z d Hrun) as Hall.
  rewrite Hstd in *. eapply Forall_impl; [| exact Hall].
  intros v ->. repeat split.
Qed.

Lemma LatentNetwork_decoder_scale_witness :
  exists self d,
    LatentNetwork.__init__ (torch := Sample.torch) (base := Light.base)
                           1 2 Sample.slope [256; 256] = Ok self /\
    run (Decoder.forward (torch := Sample.torch) Sample.x12)
        (LatentNetwork.decoder self) = Ok d /\
    Forall (fun v => v = S754_finite false 10610843 (-25)) (data (scale d)).
Proof.
  eexists. eexists.
  split; [reflexivity |]. split; [reflexivity |].
  eapply Forall_impl;
    [| exact (proj2 (LatentNetwork_decoder_scale
                       Sample.torch Light.base 1 2 Sample.slope [256; 256] _
                       Sample.x12 _ eq_refl eq_refl))].
  intros v H. exact (proj1 H).
Defined.

(** ** When the constant head returns *)


(** ** Widths and shapes of what is returned *)

Lemma fixed_std_last_dim {torch : Torch} (y : tensor) (s : float64) (n : nat)
      (d : Normal) :
  last_dim y = Some n -> Gaussian.fixed_std y s = Ok d ->
  last_dim (loc d) = Some n /\ last_dim (scale d) = Some n.
Proof.
  intros Hn H. unfold Gaussian.fixed_std, Normal_init in H.
  cbn [shape mul_scalar ones_like tmap] in H.
  rewrite broadcast_shapes_same in H. cbv zeta in H.
  destruct (validate_args && _); [discriminate |].
  injection H as <-. cbn [loc scale].
  rewrite (shape_snoc y n Hn). now rewrite !last_dim_expand.
Qed.

(** X15.  A head built by [Gaussian.__init__] with [std=None] or with a
    non-zero [std], whose network returns as many columns as the
    constructor asked it for ([2 * output_dim] and [output_dim]
    respectively), returns only distributions whose mean and scale have
    [output_dim] columns. *)
Theorem Gaussian_constructed_forward_width
        (torch : Torch) (base : Base) (input_dim output_dim : nat)
        (hidden_units : list nat) (std : option float64) (slope : float64)
        (x : input) (xt y : tensor) (d : Normal) :
  (forall s, std = Some s -> nonzero s = true) ->
  as_tensor x = Ok xt ->
  Sequential_forward
    (Gaussian.net (Gaussian.__init__ input_dim output_dim hidden_units std
                                     slope)) xt = Ok y ->
  last_dim y =
    Some (match std with None => 2 * output_dim | Some _ => output_dim end) ->
  run (Gaussian.forward x)
      (Gaussian.__init__ input_dim output_dim hidden_units std slope) = Ok d ->
  last_dim (loc d) = Some output_dim /\ last_dim (scale d) = Some output_dim.
Proof.
  intros Hstd Hx Hy Hn Hrun.
  unfold run in Hrun. rewrite Gaussian_forward_eq in Hrun. cbn [snd] in Hrun.
  rewrite Hx in Hrun. cbn [rbind] in Hrun. rewrite Hy in Hrun.
  cbn [rbind Gaussian.__init__ Gaussian.std] in Hrun.
  destruct std as [s |].
  - rewrite (Hstd s eq_refl) in Hrun.
    now apply fixed_std_last_dim with y s.
  - destruct (learned_std_last_dim y (2 * output_dim) d Hn Hrun)
      as [_ [Hl Hs]].
    replace ((2 * output_dim + 1) / 2) with output_dim in Hl, Hs; [auto |].
    replace (2 * output_dim + 1) with (1 + output_dim * 2) by lia.
    now rewrite Nat.div_add.
Qed.

Lemma Gaussian_constructed_forward_width_witness :
  exists d,
    run (Gaussian.forward (torch := Sample.torch) (Tensor Sample.x12))
        Sample.learned = Ok d /\
    last_dim (loc d) = Some 1 /\ last_dim (scale d) = Some 1.
Proof.
  eexists. split; [reflexivity |].
  refine (Gaussian_constructed_forward_width
            Sample.torch Sample.base 2 1 [256; 256] None Sample.slope
            (Tensor Sample.x12) Sample.x12 _ _ _ eq_refl eq_refl eq_refl
            eq_refl).
  discriminate.
Defined.

(** ** The decoder, call by call *)

Lemma call_item_firstn {torch : Torch} (ms l : ModuleList) (n i : nat)
      (m : layer) (x : tensor) :
  firstn n ms = l -> nth_error l i = Some m ->
  call_item ms i x = layer_forward m x.
Proof.
  intros <- H. rewrite nth_error_firstn in H. unfold call_item.
  destruct (i <? n); [now rewrite H | discriminate].
Qed.

(** X16.  [Decoder.forward] on a latent of shape [(a, b)] calls
    [convts[0]] on the latent reshaped to [(a, b, 1, 1)], then each of
    [convts[1]], ..., [convts[8]] on the [leaky_relu] of the output of
    the layer before; when they return and the last output [y] is
    well-formed, it returns the [Normal] whose mean is [tanh(y)] and
    whose scale is, at each position of [y], [1.0 * std] computed in
    binary32, which is [std] rounded to binary32; unless the framework
    validates the arguments and either [tanh(y)] holds a NaN or an
    infinity, or [y] is not empty and the rounded [std] is not positive:
    then it raises in the framework. *)
Theorem Decoder_forward_returns
        (torch : Torch) (self : Decoder.t) (x : tensor) (a b : nat)
        (m0 m1 m2 m3 m4 m5 m6 m7 m8 : layer)
        (y0 y1 y2 y3 y4 y5 y6 y7 y : tensor) :
  size x = [a; b] ->
  firstn 9 (Decoder.convts self) = [m0; m1; m2; m3; m4; m5; m6; m7; m8] ->
  layer_forward m0 (mkTensor [a; b; 1; 1] (data x)) = Ok y0 ->
  layer_forward m1 (leaky_relu y0 (Decoder.leaky_slope self)) = Ok y1 ->
  layer_forward m2 (leaky_relu y1 (Decoder.leaky_slope self)) = Ok y2 ->
  layer_forward m3 (leaky_relu y2 (Decoder.leaky_slope self)) = Ok y3 ->
  layer_forward m4 (leaky_relu y3 (Decoder.leaky_slope self)) = Ok y4 ->
  layer_forward m5 (leaky_relu y4 (Decoder.leaky_slope self)) = Ok y5 ->
  layer_forward m6 (leaky_relu y5 (Decoder.leaky_slope self)) = Ok y6 ->
  layer_forward m7 (leaky_relu y6 (Decoder.leaky_slope self)) = Ok y7 ->
  layer_forward m8 (leaky_relu y7 (Decoder.leaky_slope self)) = Ok y ->
  well_formed y ->
  run (Decoder.forward x) self =
  if validate_args &&
     negb (real (torch_tanh y) &&
           ((length (data y) =? 0) ||
            is_positive (to_float32 (Decoder.std self))))
  then Raise TorchError
  else Ok (mkNormal (torch_tanh y)
                    (mkTensor (shape y)
                              (repeat (to_float32 (Decoder.std self))
                                      (length (data y))))).
Proof.
  intros Hs Hms H0 H1 H2 H3 H4 H5 H6 H7 H8 Hwf.
  unfold run. rewrite Decoder_forward_eq. cbn [snd]. rewrite Hs.
  assert (Hview : view x [a; b; 1; 1] = Ok (mkTensor [a; b; 1; 1] (data x))).
  { unfold view. unfold size in Hs. rewrite Hs.
    replace (numel [a; b; 1; 1] =? numel [a; b]) with true; [reflexivity |].
    symmetry. apply Nat.eqb_eq. unfold numel. simpl. lia. }
  rewrite Hview. cbn [rbind].
  change (seq 0 8) with [0; 1; 2; 3; 4; 5; 6; 7].
  rewrite conv_loop_cons, (call_item_firstn _ _ 9 0 m0 _ Hms eq_refl), H0.
  cbn [rbind].
  rewrite conv_loop_cons, (call_item_firstn _ _ 9 1 m1 _ Hms eq_refl), H1.
  cbn [rbind].
  rewrite conv_loop_cons, (call_item_firstn _ _ 9 2 m2 _ Hms eq_refl), H2.
  cbn [rbind].
  rewrite conv_loop_cons, (call_item_firstn _ _ 9 3 m3 _ Hms eq_refl), H3.
  cbn [rbind].
  rewrite conv_loop_cons, (call_item_firstn _ _ 9 4 m4 _ Hms eq_refl), H4.
  cbn [rbind].
  rewrite conv_loop_cons, (call_item_firstn _ _ 9 5 m5 _ Hms eq_refl), H5.
  cbn [rbind].
  rewrite conv_loop_cons, (call_item_firstn _ _ 9 6 m6 _ Hms eq_refl), H6.
  cbn [rbind].
  rewrite conv_loop_cons, (call_item_firstn _ _ 9 7 m7 _ Hms eq_refl), H7.
  cbn [rbind]. rewrite conv_loop_nil. cbn [rbind].
  rewrite (call_item_firstn _ _ 9 8 m8 _ Hms eq_refl), H8.
  cbn [rbind]. cbv zeta.
  rewrite (fixed_scale_eq (torch_tanh y) (Decoder.std self)).
  assert (Hsh : shape (torch_tanh y) = shape y) by reflexivity.
  assert (Hlen : length (data (torch_tanh y)) = length (data y))
    by (unfold torch_tanh, tmap; cbn [data]; apply length_map).
  rewrite Hsh, Hlen.
  rewrite Normal_init_same_shape;
    [| reflexivity | now apply well_formed_tmap | now apply well_formed_repeat].
  unfold accepted. cbn [loc scale]. now rewrite positive_repeat.
Qed.

Lemma Decoder_forward_returns_witness :
  run (Decoder.forward (torch := Sample.torch) Sample.x12) Sample.decoder =
  Ok (mkNormal (mkTensor [1; 2; 1; 1] [f32_one; f32_one])
               (mkTensor [1; 2; 1; 1] [f32_one; f32_one])) /\
  run (Decoder.forward (torch := Light.strict_torch) Sample.nan12)
      Sample.decoder = Raise TorchError.
Proof.
  split.
  - exact (Decoder_forward_returns
             Sample.torch Sample.decoder Sample.x12 1 2
             _ _ _ _ _ _ _ _ _ _ _ _ _ _ _ _ _ _
             eq_refl eq_refl eq_refl eq_refl eq_refl eq_refl eq_refl
             eq_refl eq_refl eq_refl eq_refl eq_refl).
  - exact (Decoder_forward_returns
             Light.strict_torch Sample.decoder Sample.nan12 1 2
             _ _ _ _ _ _ _ _ _ _ _ _ _ _ _ _ _ _
             eq_refl eq_refl eq_refl eq_refl eq_refl eq_refl eq_refl
             eq_refl eq_refl eq_refl eq_refl eq_refl).
Defined.
